(** * desktop-archive-util: the archive-and-publish workflow of
    [archive_desktop.py], embedded as state-passing functions.

    The program is a sequence of effects on the local file system, on the
    host clock and on one S3 bucket.  The effects are threaded through a
    state-and-exception monad; what the program cannot control (the clock,
    the names drawn by [tempfile.mkstemp], the shell, the storage back end)
    is collected in a [Host] record and quantified over.

    The program is read with the semantics of Python 3 on a POSIX host whose
    locale encoding is UTF-8: files opened without a [b] in the mode are
    text, encoded and decoded as UTF-8. *)

From Stdlib Require Import Ascii.
From stdpp Require Import gmap strings list fin_maps pretty sorting.

(** ** Strings and paths *)

(** [str.startswith] and [str.endswith]. *)
Definition startswith (s pre : string) : bool := String.prefix pre s.

Definition endswith (s suf : string) : bool :=
  String.prefix (String.rev suf) (String.rev s).

(** [posixpath.join(a, *p)]: a component that starts with the separator
    replaces what was built so far; otherwise it is appended, with a
    separator unless the path is empty or already ends with one. *)
Fixpoint join_onto (path : string) (p : list string) : string :=
  match p with
  | [] => path
  | b :: p' =>
      join_onto
        (if startswith b "/" then b
         else if bool_decide (path = "") || endswith path "/" then path +:+ b
         else path +:+ "/" +:+ b)
        p'
  end.

Definition os_path_join (a : string) (p : list string) : string :=
  join_onto a p.

(** ** Text

    Strings are sequences of bytes; a text is held as its UTF-8 encoding. *)

Definition in_range (lo hi b : N) : bool := (lo <=? b)%N && (b <=? hi)%N.

Definition continuation (b : N) : bool := in_range 128 191 b.

(** Strict UTF-8, as Python's codec takes it: shortest forms only, no
    surrogates, nothing above U+10FFFF. *)
Fixpoint utf8_sequences (l : list N) : bool :=
  match l with
  | [] => true
  | b0 :: l1 =>
      if (b0 <? 128)%N then utf8_sequences l1
      else if in_range 194 223 b0 then
        match l1 with
        | b1 :: l2 => continuation b1 && utf8_sequences l2
        | _ => false
        end
      else if in_range 224 239 b0 then
        match l1 with
        | b1 :: b2 :: l3 =>
            in_range (if (b0 =? 224)%N then 160 else 128)
                     (if (b0 =? 237)%N then 159 else 191) b1
            && continuation b2 && utf8_sequences l3
        | _ => false
        end
      else if in_range 240 244 b0 then
        match l1 with
        | b1 :: b2 :: b3 :: l4 =>
            in_range (if (b0 =? 240)%N then 144 else 128)
                     (if (b0 =? 244)%N then 143 else 191) b1
            && continuation b2 && continuation b3 && utf8_sequences l4
        | _ => false
        end
      else false
  end.

(** Whether a string is the encoding of a text.  A text file can be read
    when its bytes are; a string can be written to a text file when it is (a
    member name that is not, reaches the program with the offending bytes as
    lone surrogates, which do not encode). *)
Definition utf8_valid (s : string) : bool :=
  utf8_sequences (N_of_ascii <$> String.list_ascii_of_string s).

(** Reading text translates the line ends: a carriage return, with the line
    feed that follows it if there is one, is read as one line feed. *)
Fixpoint universal_newlines (l : list ascii) : list ascii :=
  match l with
  | [] => []
  | c :: l1 =>
      if bool_decide (c = ascii_of_nat 13) then
        ascii_of_nat 10 ::
        match l1 with
        | c1 :: l2 =>
            if bool_decide (c1 = ascii_of_nat 10) then universal_newlines l2
            else universal_newlines l1
        | [] => []
        end
      else c :: universal_newlines l1
  end.

(** The white space of [str.strip()]: in ASCII the characters 09 to 0D, 1C
    to 1F and the space; beyond ASCII, here in UTF-8, U+0085, U+00A0, U+1680,
    U+2000 to U+200A, U+2028, U+2029, U+202F, U+205F and U+3000. *)
Definition whitespace : list ascii :=
  ascii_of_nat <$> [9; 10; 11; 12; 13; 28; 29; 30; 31; 32]%nat.

Definition wide_whitespace : list (list ascii) :=
  (λ bytes : list nat, ascii_of_nat <$> bytes) <$>
    [ [194; 133]; [194; 160]; [225; 154; 128];
      [226; 128; 128]; [226; 128; 129]; [226; 128; 130]; [226; 128; 131];
      [226; 128; 132]; [226; 128; 133]; [226; 128; 134]; [226; 128; 135];
      [226; 128; 136]; [226; 128; 137]; [226; 128; 138];
      [226; 128; 168]; [226; 128; 169]; [226; 128; 175];
      [226; 129; 159]; [227; 128; 128] ]%nat.

(** Dropping the leading white space, given the one-byte and the longer
    white-space characters. *)
Fixpoint lstrip_of (narrow : list ascii) (wide : list (list ascii))
    (l : list ascii) : list ascii :=
  match l with
  | [] => []
  | c :: l1 =>
      if bool_decide (c ∈ narrow) then lstrip_of narrow wide l1
      else
        match l1 with
        | c1 :: l2 =>
            if bool_decide ([c; c1] ∈ wide) then lstrip_of narrow wide l2
            else
              match l2 with
              | c2 :: l3 =>
                  if bool_decide ([c; c1; c2] ∈ wide)
                  then lstrip_of narrow wide l3 else l
              | [] => l
              end
        | [] => l
        end
  end.

Definition lstrip (l : list ascii) : list ascii :=
  lstrip_of whitespace wide_whitespace l.

Definition rstrip (l : list ascii) : list ascii :=
  reverse (lstrip_of whitespace (reverse <$> wide_whitespace) (reverse l)).

(** [str.strip()] and [str.split(sep)] for a one-character separator. *)
Definition strip (s : string) : string :=
  String.string_of_list_ascii (rstrip (lstrip (String.list_ascii_of_string s))).

Fixpoint split (sep : ascii) (s : string) : list string :=
  match s with
  | EmptyString => [""]
  | String c s' =>
      if bool_decide (c = sep) then "" :: split sep s'
      else match split sep s' with
           | w :: ws => String c w :: ws
           | [] => [String c ""]
           end
  end.

(** ** The host clock *)

(** What [datetime.datetime.now()] shows of one clock reading: the local
    calendar date (the time of day is not used by the program). *)
Record datetime := {
  year : nat;
  month : nat;
  day : nat;
}.

(** One reading of the clock: [epoch] is [int(time.time())], whole seconds
    since the Unix epoch; [local] is [datetime.datetime.now()]. *)
Record Instant := {
  epoch : Z;
  local : datetime;
}.

(** Decimal rendering of a number, zero-padded on the left to [width]. *)
Definition zfill (width : nat) (s : string) : string :=
  String.string_of_list_ascii
    (replicate (width - String.length s) "0"%char) +:+ s.

(** [d.strftime('%Y-%m-%d')]. *)
Definition strftime_Ymd (d : datetime) : string :=
  zfill 4 (pretty (year d)) +:+ "-" +:+ zfill 2 (pretty (month d))
    +:+ "-" +:+ zfill 2 (pretty (day d)).

(** ** Files, archives and stored objects *)

(** What [tarfile] reports of one archive member; the program reads only
    [member.name] and [member.size]. *)
Module tarfile.
Record TarInfo := {
  name : string;
  size : N;
}.
End tarfile.
Abbreviation TarInfo := tarfile.TarInfo.

(** The contents of a regular file: a gzip-compressed tar archive, seen
    through the list of members [tarfile] reports for it, in the archive's
    order; or any other data, by its bytes.  On data of the second kind
    [tarfile] raises, when it opens the file or when it lists the members. *)
Inductive Content :=
| Data (s : string)
| TarGz (members : list TarInfo).

#[local] Set Warnings "-register-all".

(** A directory tree as the packing command walks it: regular files with
    their size in bytes, directories with their entries in listing order. *)
Inductive Tree :=
| TFile (sz : N)
| TDir (entries : list (string * Tree)).

(** The local file system, keyed by the absolute paths the program names. *)
Inductive Entry :=
| Regular (c : Content)
| Directory (entries : list (string * Tree)).

(** An object of the bucket: body, request headers (a Python dict), and the
    canned access policy it was stored with. *)
Record S3Object := {
  body : Content;
  headers : gmap string string;
  policy : string;
}.

(** The exceptions that end a run, by their class.  [IOError] stands for the
    class and its subclasses as [open] raises them; [ValueError] is also what
    the model raises where Python raises its subclass UnicodeDecodeError, for
    a text file whose bytes do not decode; [LibraryError] is any other class
    a library of the host may raise (zlib.error, a socket error, ...). *)
Inductive Exn :=
| IOError (filename : string)
| OSError (filename : string)
| FileExistsError
| ReadError
| EOFError
| ValueError
| UnicodeEncodeError
| NameError (var : string)
| NoAuthHandlerFound
| S3ResponseError
| BotoServerError
| LibraryError (class : string).

(** How [tarfile] fails on data that is not an archive: in [tarfile.open],
    or later, in [getmembers]. *)
Inductive TarFailure :=
| OpenFails (e : Exn)
| MembersFail (e : Exn).

Inductive Level := DEBUG | INFO.

(** The effects of a run that reach outside the process, in the order they
    complete. *)
Inductive Event :=
| Mkstemp (tempfilename : string)
| Popen (cmd cwd : string) (status : Z)
| TarOpen (path : string)
| Written (path : string)
| GetBucket (bucket_name : string) (access secret : option string)
| PutString (key : string) (obj : S3Object)
| PutFile (filename key : string) (obj : S3Object)
| GenerateUrl (key : string) (expires_in : Z).

(** The state a run threads: the file system, the bucket's objects, how
    many times the program has read the clock, how many temporary names were
    drawn, how many operations the program has asked of the storage client
    ([requests]: one per call of [get_bucket] or [set_contents_from_...];
    how many HTTP requests the client makes for one operation is its own
    business, it repeats a request the back end answers with a server
    error), the effects so far, the log calls, and the namespace of the
    script. *)
Record State := {
  fs : gmap string Entry;
  objects : gmap string S3Object;
  clock_reads : nat;
  names_drawn : nat;
  requests : nat;
  trace : list Event;
  logged : list (Level * string);
  globals : gmap string (option string);
}.

(** What the host decides: successive clock readings, the candidate names
    [mkstemp] draws, path resolution, the home directory, what the shell
    does with a command line in a working directory (new file system and
    exit status), how [tarfile] fails on data that is not an archive and not
    empty, whether the n-th operation asked of the storage client succeeds
    and which exception the client raises when it does not (S3ResponseError
    when the back end refuses the request, BotoServerError when it keeps
    answering with a server error, ...), whether boto finds credentials of
    its own, and URL signing. *)
Record Host := {
  clock : nat → Instant;
  tempnames : nat → string;
  realpath : string → string;
  home : string;
  sh : string → string → gmap string Entry → gmap string Entry * Z;
  tarfile_failure : string → TarFailure;
  s3_up : nat → bool;
  s3_error : nat → Exn;
  ambient_credentials : bool;
  sign_url : string → Z → string;
}.

(** ** The monad of effects *)

Inductive Outcome (A : Type) :=
| Returned (a : A) (s : State)
| Raised (e : Exn) (s : State).
Arguments Returned {A} a s.
Arguments Raised {A} e s.

Definition M (A : Type) : Type := State → Outcome A.

Definition ret {A} (a : A) : M A := λ s, Returned a s.

Definition bind {A B} (m : M A) (k : A → M B) : M B :=
  λ s, match m s with
       | Returned a s' => k a s'
       | Raised e s' => Raised e s'
       end.

Definition raise {A} (e : Exn) : M A := λ s, Raised e s.

(** [try: m except <handled>: h]. *)
Definition try_except {A} (m : M A) (handled : Exn → bool) (h : M A) : M A :=
  λ s, match m s with
       | Returned a s' => Returned a s'
       | Raised e s' => if handled e then h s' else Raised e s'
       end.

Declare Scope py_scope.
Delimit Scope py_scope with py.
Notation "'let!' x ':=' m 'in' k" := (bind m (λ x, k))
  (at level 10, x name, m at level 100, k at level 200) : py_scope.
Notation "m ';;;' k" := (bind m (λ _, k))
  (at level 100, k at level 200, right associativity) : py_scope.
Local Open Scope py_scope.

Definition final_state {A} (o : Outcome A) : State :=
  match o with Returned _ s | Raised _ s => s end.

Definition set_fs (f : gmap string Entry → gmap string Entry) (s : State) : State :=
  {| fs := f (fs s); objects := objects s; clock_reads := clock_reads s;
     names_drawn := names_drawn s; requests := requests s; trace := trace s;
     logged := logged s; globals := globals s |}.

Definition emit (e : Event) : M unit := λ s,
  Returned tt
    {| fs := fs s; objects := objects s; clock_reads := clock_reads s;
       names_drawn := names_drawn s; requests := requests s;
       trace := trace s ++ [e]; logged := logged s; globals := globals s |}.

(** [logger.debug(msg)] and [logger.info(msg)]. *)
Definition log (lvl : Level) (msg : string) : M unit := λ s,
  Returned tt
    {| fs := fs s; objects := objects s; clock_reads := clock_reads s;
       names_drawn := names_drawn s; requests := requests s;
       trace := trace s; logged := logged s ++ [(lvl, msg)];
       globals := globals s |}.

Definition set_objects (f : gmap string S3Object → gmap string S3Object)
    (s : State) : State :=
  {| fs := fs s; objects := f (objects s); clock_reads := clock_reads s;
     names_drawn := names_drawn s; requests := requests s; trace := trace s;
     logged := logged s; globals := globals s |}.

Definition set_globals
    (f : gmap string (option string) → gmap string (option string))
    (s : State) : State :=
  {| fs := fs s; objects := objects s; clock_reads := clock_reads s;
     names_drawn := names_drawn s; requests := requests s; trace := trace s;
     logged := logged s; globals := f (globals s) |}.

Definition modify (f : State → State) : M unit := λ s, Returned tt (f s).

(** ** The library calls the program makes *)

(** [tempfile.TMP_MAX]: how many candidate names [mkstemp] tries. *)
Definition TMP_MAX : nat := N.to_nat 10000.

Section Program.
Context (H : Host).

(** One reading of the host clock; each reading consumes the next value
    the host provides. *)
Definition read_clock : M Instant := λ s,
  Returned (clock H (clock_reads s))
    {| fs := fs s; objects := objects s; clock_reads := S (clock_reads s);
       names_drawn := names_drawn s; requests := requests s;
       trace := trace s; logged := logged s; globals := globals s |}.

(** [datetime.datetime.now()]. *)
Definition datetime_now : M datetime :=
  let! i := read_clock in ret (local i).

(** [int(time.time())]. *)
Definition int_time_time : M Z :=
  let! i := read_clock in ret (epoch i).

(** The loop of [tempfile._mkstemp_inner]: draw candidate names until one
    does not exist yet, at most [attempts] times. *)
Fixpoint fresh_name (attempts pos : nat) (files : gmap string Entry)
    : option (string * nat) :=
  match attempts with
  | O => None
  | S k =>
      match files !! tempnames H pos with
      | None => Some (tempnames H pos, S pos)
      | Some _ => fresh_name k (S pos) files
      end
  end.

(** [_, tempfilename = tempfile.mkstemp()]: creates an empty file under a
    name that did not exist. *)
Definition mkstemp : M string := λ s,
  match fresh_name TMP_MAX (names_drawn s) (fs s) with
  | Some (tempfilename, pos) =>
      Returned tempfilename
        {| fs := <[tempfilename := Regular (Data "")]> (fs s);
           objects := objects s; clock_reads := clock_reads s;
           names_drawn := pos; requests := requests s;
           trace := trace s ++ [Mkstemp tempfilename];
           logged := logged s; globals := globals s |}
  | None => Raised FileExistsError s
  end.

(** [subprocess.Popen(cmd, cwd=cwd, shell=True)]: fails when the working
    directory is not a directory; otherwise the shell runs the command
    line there.  The run is sequential and blocks on the child, so the
    child's effects are applied here and the handle is its exit status. *)
Definition subprocess_Popen (cmd cwd : string) : M Z := λ s,
  match fs s !! cwd with
  | Some (Directory _) =>
      let '(files, status) := sh H cmd cwd (fs s) in
      (emit (Popen cmd cwd status);;; ret status) (set_fs (λ _, files) s)
  | _ => Raised (OSError cwd) s
  end.

(** [proc.wait()]. *)
Definition proc_wait (proc : Z) : M Z := ret proc.

(** How [tarfile] fails on data that is not an archive: an empty file is
    rejected with ReadError when it is opened; for other data the exception
    and the place are the library's (ReadError for what is no gzip stream,
    EOFError for a gzip stream cut short, ...). *)
Definition tar_failure (d : string) : TarFailure :=
  if bool_decide (d = "") then OpenFails ReadError else tarfile_failure H d.

(** [tarfile.open(archive_path)]: the handle reads the data the file holds
    at this moment. *)
Definition tarfile_open (archive_path : string) : M Content := λ s,
  match fs s !! archive_path with
  | Some (Regular (TarGz members)) =>
      (emit (TarOpen archive_path);;; ret (TarGz members)) s
  | Some (Regular (Data d)) =>
      match tar_failure d with
      | OpenFails e => Raised e s
      | MembersFail _ => (emit (TarOpen archive_path);;; ret (Data d)) s
      end
  | _ => Raised (IOError archive_path) s
  end.

(** [archive.getmembers()]. *)
Definition getmembers (archive : Content) : M (list TarInfo) :=
  match archive with
  | TarGz members => ret members
  | Data d =>
      match tar_failure d with
      | OpenFails e | MembersFail e => raise e
      end
  end.

(** [open(path, 'w')]: creates or truncates. *)
Definition open_w (path : string) : M string := λ s,
  match fs s !! path with
  | Some (Directory _) => Raised (IOError path) s
  | _ => Returned path (set_fs <[path := Regular (Data "")]> s)
  end.

(** [out.write(data)] on a text file: a string that does not encode raises
    UnicodeEncodeError and nothing of it is written. *)
Definition file_write (out data : string) : M unit := λ s,
  if utf8_valid data then
    match fs s !! out with
    | Some (Regular (Data written)) =>
        Returned tt (set_fs <[out := Regular (Data (written +:+ data))]> s)
    | _ => Raised (IOError out) s
    end
  else Raised UnicodeEncodeError s.

(** Leaving the [with] block closes the file. *)
Definition file_close (out : string) : M unit := emit (Written out).

(** [with open(path, 'w') as out: body]: the file is closed when the block
    is left, by its end or by an exception. *)
Definition with_open_w {A} (path : string) (body : string → M A) : M A :=
  let! out := open_w path in
  λ s, match body out s with
       | Returned a s' => (file_close out;;; ret a) s'
       | Raised e s' => (file_close out;;; raise e) s'
       end.

(** Reading the bytes of a whole file, as the upload does. *)
Definition read_file (filename : string) : M Content := λ s,
  match fs s !! filename with
  | Some (Regular c) => Returned c s
  | _ => Raised (IOError filename) s
  end.

(** [with open(filename, 'r') as in_: in_.read()]: the bytes are decoded and
    the line ends translated.  Bytes that are not UTF-8 (those of an archive
    never are: a gzip stream starts with 1F 8B) raise UnicodeDecodeError, a
    ValueError. *)
Definition read_text (filename : string) : M string :=
  let! c := read_file filename in
  match c with
  | Data contents =>
      if utf8_valid contents
      then ret (String.string_of_list_ascii
                  (universal_newlines (String.list_ascii_of_string contents)))
      else raise ValueError
  | TarGz _ => raise ValueError
  end.

(** One operation of the storage client.  The host decides whether it
    succeeds; when it does not, the client raises and the program does not
    ask again. *)
Definition s3_request : M unit := λ s,
  let s' :=
    {| fs := fs s; objects := objects s; clock_reads := clock_reads s;
       names_drawn := names_drawn s; requests := S (requests s);
       trace := trace s; logged := logged s; globals := globals s |} in
  if s3_up H (requests s) then Returned tt s'
  else Raised (s3_error H (requests s)) s'.

(** [key.set_contents_from_string(data, headers, policy=policy)]. *)
Definition set_contents_from_string (key data : string)
    (hdrs : gmap string string) (pol : string) : M unit :=
  let obj := {| body := Data data; headers := hdrs; policy := pol |} in
  s3_request;;;
  modify (set_objects <[key := obj]>);;;
  emit (PutString key obj).

(** [key.set_contents_from_filename(filename, headers, policy=policy)]. *)
Definition set_contents_from_filename (key filename : string)
    (hdrs : gmap string string) (pol : string) : M unit :=
  let! c := read_file filename in
  let obj := {| body := c; headers := hdrs; policy := pol |} in
  s3_request;;;
  modify (set_objects <[key := obj]>);;;
  emit (PutFile filename key obj).

(** [key.generate_url(expires_in)]. *)
Definition generate_url (key : string) (expires_in : Z) : M string :=
  emit (GenerateUrl key expires_in);;;
  ret (sign_url H key expires_in).

End Program.

(** ** The program *)

(** The attributes [__init__] sets.  The bucket handle is the bucket's
    name; its objects live in the state. *)
Record DesktopArchiveManager := {
  local_path : string;
  remote_path : string;
  bucket : string;
}.

(** The command line as [argparse] splits it: the positional bucket name
    and the options that were given. *)
Record CommandLine := {
  arg_bucket : string;
  opt_path : option string;
  opt_aws_access_key : option string;
  opt_aws_secret_key : option string;
  opt_bucket_prefix : option string;
  opt_loglevel : option string;
}.

Section Workflow.
Context (H : Host).

(** [DesktopArchiveManager.__init__]: the connection needs credentials,
    given or found by boto itself; [get_bucket] asks the back end. *)
Definition init (bucket_name : string)
    (aws_access_key aws_secret_key : option string)
    (local remote : string) : M DesktopArchiveManager :=
  (if bool_decide (is_Some aws_access_key ∧ is_Some aws_secret_key)
      || ambient_credentials H
   then ret tt else raise NoAuthHandlerFound);;;
  s3_request H;;;
  emit (GetBucket bucket_name aws_access_key aws_secret_key);;;
  ret {| local_path := local; remote_path := remote;
         bucket := bucket_name |}.

Definition store_file_at_path (self : DesktopArchiveManager)
    (local remote : string) : M string :=
  log DEBUG ("Uploading file " +:+ local +:+ " to " +:+ remote +:+ ".");;;
  let key := remote in
  let! now := int_time_time H in
  set_contents_from_filename H key local
    {[ "Content-Type" := "application/octet-stream";
       "x-amz-meta-mtime" := pretty now ]}
    "private";;;
  ret key.

Definition get_prefix (self : DesktopArchiveManager)
    (components : list string) : M string :=
  let! now := datetime_now H in
  ret (os_path_join (remote_path self) (strftime_Ymd now :: components)).

Definition create_directory (self : DesktopArchiveManager)
    (prefix : string) : M unit :=
  let key := prefix in
  let! now := int_time_time H in
  set_contents_from_string H key ""
    {[ "Content-Type" := "application/x-directory";
       "x-amz-meta-gid" := "20";
       "x-amz-meta-uid" := "501";
       "x-amz-meta-mode" := "16877";
       "x-amz-meta-mtime" := pretty now ]}
    "private";;;
  log DEBUG ("Created directory " +:+ prefix +:+ ".").

Definition create_archive (self : DesktopArchiveManager)
    (path : string) : M string :=
  log DEBUG "Creating archive.";;;
  let! tempfilename := mkstemp H in
  let! proc :=
    subprocess_Popen H ("tar -zcvf " +:+ tempfilename +:+ " *")
      (realpath H path) in
  log DEBUG "Waiting for archive to be completed.";;;
  let! _ := proc_wait proc in
  log DEBUG ("Archive written to " +:+ tempfilename +:+ ".");;;
  ret tempfilename.

(** The [for member in ...] loop over the members. *)
Fixpoint write_members (out : string) (members : list TarInfo) : M unit :=
  match members with
  | [] => ret tt
  | member :: rest =>
      file_write out
        (tarfile.name member +:+ String (ascii_of_nat 9) ""
           +:+ pretty (tarfile.size member)
           +:+ String (ascii_of_nat 10) "");;;
      write_members out rest
  end.

Definition create_index_from_archive (self : DesktopArchiveManager)
    (archive_path : string) : M string :=
  log DEBUG "Generating archive index.";;;
  let! tempfilename := mkstemp H in
  let! archive := tarfile_open H archive_path in
  with_open_w tempfilename (λ out,
    let! members := getmembers H archive in
    write_members out members);;;
  log DEBUG ("Index written to " +:+ tempfilename +:+ ".");;;
  ret tempfilename.

Definition archive_files (self : DesktopArchiveManager) : M unit :=
  let! archive_path := create_archive self (local_path self) in
  let! index_path := create_index_from_archive self archive_path in
  let! prefix := get_prefix self [] in
  create_directory self prefix;;;
  let! archive_key := get_prefix self ["archive.tar.gz"] in
  let! archive := store_file_at_path self archive_path archive_key in
  let! archive_url := generate_url H archive (24 * 60 * 60) in
  log INFO ("Archive stored: " +:+ archive_url);;;
  let! index_key := get_prefix self ["index.tsv.txt"] in
  let! index := store_file_at_path self index_path index_key in
  let! index_url := generate_url H index (24 * 60 * 60) in
  log INFO ("Index stored: " +:+ index_url);;;
  log INFO "Files archived".

(** [os.path.expanduser] on a path that starts with [~/]. *)
Definition expanduser (path : string) : string :=
  match path with
  | String "~" (String "/" _ as rest) => home H +:+ rest
  | _ => path
  end.

Definition get_access_key_and_secret_from_s3fs : M (list string) :=
  let! contents := read_text (expanduser "~/.passwd-s3fs") in
  ret (split ":" (strip contents)).

(** Assigning to and reading a name of the script's namespace. *)
Definition store_name (var : string) (v : option string) : M unit :=
  modify (set_globals <[var := v]>).

Definition load_name (var : string) : M (option string) := λ s,
  match globals s !! var with
  | Some v => Returned v s
  | None => Raised (NameError var) s
  end.

Definition is_IOError (e : Exn) : bool :=
  match e with IOError _ => true | _ => false end.

(** The names by which [logging] knows a level. *)
Definition level_names : list string :=
  ["CRITICAL"; "FATAL"; "ERROR"; "WARN"; "WARNING"; "INFO"; "DEBUG"; "NOTSET"].

(** [logging.basicConfig(level=logging.getLevelName(loglevel))]:
    [getLevelName] gives the number of a name it knows and the string
    ["Level " + loglevel] for any other, which [basicConfig] rejects with
    ValueError. *)
Definition logging_basicConfig (loglevel : string) : M unit :=
  if bool_decide (loglevel ∈ level_names) then ret tt else raise ValueError.

(** The script under [if __name__ == '__main__']. *)
Definition main (argv : CommandLine) : M unit :=
  try_except
    (let! fields := get_access_key_and_secret_from_s3fs in
     match fields with
     | [access; secret] =>
         store_name "access_default" (Some access);;;
         store_name "secret_default" (Some secret)
     | _ => raise ValueError
     end)
    is_IOError
    (store_name "access_default" None;;;
     store_name "key_default" None);;;
  let path_default := expanduser "~/Desktop/" in
  let! access_default := load_name "access_default" in
  let! secret_default := load_name "secret_default" in
  let args_path := default path_default (opt_path argv) in
  let args_aws_access_key :=
    from_option Some access_default (opt_aws_access_key argv) in
  let args_aws_secret_key :=
    from_option Some secret_default (opt_aws_secret_key argv) in
  let args_bucket_prefix := default "desktop" (opt_bucket_prefix argv) in
  let args_loglevel := default "INFO" (opt_loglevel argv) in
  logging_basicConfig args_loglevel;;;
  let! manager :=
    init (arg_bucket argv) args_aws_access_key args_aws_secret_key
      args_path args_bucket_prefix in
  archive_files manager.

End Workflow.

(** ** The packing command

    [create_archive] hands the shell the line [tar -zcvf <tempfilename> *],
    with the name of the temporary file put in as it is, without quotes.
    What follows is what a POSIX shell and tar make of that line when the
    name is a single word for the shell, in a directory none of whose names
    starts with a dash (such a name would be read by tar as an option). *)

(** A character the shell passes on as it is: a letter, a digit, or one of
    [/ . _ - + , : @ %]. *)
Definition shell_safe (c : ascii) : bool :=
  in_range 48 57 (N_of_ascii c) || in_range 65 90 (N_of_ascii c)
  || in_range 97 122 (N_of_ascii c)
  || bool_decide (c ∈ String.list_ascii_of_string "/._-+,:@%").


(** A name that the pattern [*] does not match: pathname expansion never
    matches a leading period. *)
Definition hidden (n : string) : bool := startswith n ".".

(** Pathname expansion of the word [*] in a directory: the names that do not
    start with a period, sorted; when there is none the word is left as it
    is. *)
Definition glob_star (entries : list (string * Tree)) : list string :=
  match filter (λ n, ¬ hidden n) (merge_sort (≤)%string entries.*1) with
  | [] => ["*"]
  | visible => visible
  end.

Fixpoint lookup_entry (n : string) (entries : list (string * Tree))
    : option Tree :=
  match entries with
  | [] => None
  | (n', t) :: rest => if bool_decide (n = n') then Some t
                       else lookup_entry n rest
  end.

(** The members tar writes for one operand: the file itself, or the
    directory followed by everything below it, hidden or not. *)
Fixpoint tar_walk (path : string) (t : Tree) : list TarInfo :=
  match t with
  | TFile sz => [{| tarfile.name := path; tarfile.size := sz |}]
  | TDir entries =>
      {| tarfile.name := path; tarfile.size := 0 |} ::
      (fix below (es : list (string * Tree)) : list TarInfo :=
         match es with
         | [] => []
         | (n, t') :: es' =>
             (tar_walk (path +:+ "/" +:+ n) t' ++ below es')%list
         end) entries
  end.

(** tar over its operands: an operand that does not exist is reported and
    skipped, and the exit status is then 2. *)
Definition tar_create (entries : list (string * Tree))
    (operands : list string) : list TarInfo * Z :=
  let packed := (λ n, tar_walk n <$> lookup_entry n entries) <$> operands in
  (concat (default [] <$> packed),
   if forallb (λ o, bool_decide (is_Some o)) packed then 0 else 2)%Z.


(** Taking the prefix off a string. *)
Fixpoint strip_prefix (pre s : string) : option string :=
  match pre, s with
  | EmptyString, _ => Some s
  | String a pre', String b s' =>
      if bool_decide (a = b) then strip_prefix pre' s' else None
  | String _ _, EmptyString => None
  end.

(** The words the shell splits a command line into at its spaces. *)
Definition shell_words (cmd : string) : list string :=
  filter (λ w, w ≠ "") (split " " cmd).

(** An example shell.  It knows the command [tar -zcvf], given the name of
    the archive and at least one operand: each operand is a name in the
    working directory, or the pattern [*], which it expands.  A relative
    archive name is resolved in the working directory; an operand that does
    not exist is skipped, with exit status 2.  An operand that starts with a
    dash is taken by its tar for options it does not have: it stops with
    status 64 and nothing written.  A word with a character that is not
    [shell_safe] is beyond this shell, which stops with status 2.  Any other
    command is "command not found". *)
Definition posix_sh (cmd cwd : string) (files : gmap string Entry)
    : gmap string Entry * Z :=
  match shell_words cmd with
  | "tar" :: "-zcvf" :: archive :: operand :: operands =>
      match files !! cwd with
      | Some (Directory entries) =>
          let expanded :=
            (operand :: operands) ≫=
              λ w, if bool_decide (w = "*") then glob_star entries else [w] in
          if forallb shell_safe (String.list_ascii_of_string archive)
             && forallb (λ w, bool_decide (w = "*")
                              || forallb shell_safe
                                   (String.list_ascii_of_string w))
                  (operand :: operands)
          then
            if forallb (λ n, negb (startswith n "-")) expanded
            then
              let '(members, status) := tar_create entries expanded in
              (<[os_path_join cwd [archive] := Regular (TarGz members)]> files,
               status)
            else (files, 64%Z)
          else (files, 2%Z)
      | _ => (files, 2%Z)
      end
  | "tar" :: _ => (files, 2%Z)
  | _ => (files, 127%Z)
  end.



(** ** A concrete host and run, for examples *)

Definition desktop_tree : list (string * Tree) :=
  [ ("sub", TDir [("b.txt", TFile 20); (".cache", TFile 7)]);
    (".profile", TFile 33);
    ("a.txt", TFile 10) ].

Definition initial_state (files : gmap string Entry) : State :=
  {| fs := files; objects := ∅; clock_reads := 0; names_drawn := 0;
     requests := 0; trace := []; logged := []; globals := ∅ |}.

(** The three bytes a gzip stream of deflated data starts with. *)
Definition gzip_magic : string :=
  String (ascii_of_nat 31) (String (ascii_of_nat 139)
    (String (ascii_of_nat 8) "")).

(** A host whose clock stays on 2024-03-05, with a working back end.  Its
    [tarfile] takes data that starts as a gzip stream for a stream cut
    short, and any other data for no archive at all. *)
Definition host_2024_03_05 : Host :=
  {| clock := λ n, {| epoch := 1709640000 + Z.of_nat n;
                      local := {| year := 2024; month := 3; day := 5 |} |};
     tempnames := λ n, "/tmp/tmp" +:+ pretty n;
     realpath := λ p, p;
     home := "/home/user";
     sh := posix_sh;
     tarfile_failure := λ d,
       OpenFails (if startswith d gzip_magic then EOFError else ReadError);
     s3_up := λ _, true;
     s3_error := λ _, S3ResponseError;
     ambient_credentials := false;
     sign_url := λ key expires_in,
       "https://s3.example/" +:+ key +:+ "?Expires=" +:+ pretty expires_in |}.

Definition manager_desktop : DesktopArchiveManager :=
  {| local_path := "/home/user/Desktop/"; remote_path := "desktop";
     bucket := "backups" |}.

Definition desktop_files : gmap string Entry :=
  {[ "/home/user/Desktop/" := Directory desktop_tree ]}.

(** A host whose clock passes midnight after the first two readings: the
    directory marker is stamped on 2024-03-05, the uploads on 2024-03-06. *)
Definition host_midnight : Host :=
  {| clock := λ n,
       if bool_decide (n < 2)
       then {| epoch := 1709683198 + Z.of_nat n;
               local := {| year := 2024; month := 3; day := 5 |} |}
       else {| epoch := 1709683198 + Z.of_nat n;
               local := {| year := 2024; month := 3; day := 6 |} |};
     tempnames := tempnames host_2024_03_05;
     realpath := realpath host_2024_03_05;
     home := home host_2024_03_05;
     sh := sh host_2024_03_05;
     tarfile_failure := tarfile_failure host_2024_03_05;
     s3_up := s3_up host_2024_03_05;
     s3_error := s3_error host_2024_03_05;
     ambient_credentials := ambient_credentials host_2024_03_05;
     sign_url := sign_url host_2024_03_05 |}.

(** A host on which the packing command cannot even be started: the shell
    reports "command not found" and touches nothing. *)
Definition host_without_tar : Host :=
  {| clock := clock host_2024_03_05;
     tempnames := tempnames host_2024_03_05;
     realpath := realpath host_2024_03_05;
     home := home host_2024_03_05;
     sh := λ _ _ files, (files, 127%Z);
     tarfile_failure := tarfile_failure host_2024_03_05;
     s3_up := s3_up host_2024_03_05;
     s3_error := s3_error host_2024_03_05;
     ambient_credentials := ambient_credentials host_2024_03_05;
     sign_url := sign_url host_2024_03_05 |}.

(** ** Vocabulary of the specification *)

Definition TAB : string := String (ascii_of_nat 9) "".
Definition NL : string := String (ascii_of_nat 10) "".

(** The manifest format: one line per member, [<name>\t<size>\n], in the
    order of the members. *)
Definition manifest_line (member : TarInfo) : string :=
  tarfile.name member +:+ TAB +:+ pretty (tarfile.size member) +:+ NL.

Definition manifest (members : list TarInfo) : string :=
  foldr String.append "" (manifest_line <$> members).

(** A line of the manifest without its newline, and the lines of a text:
    what stands before each newline, and what follows the last. *)
Definition manifest_fields (member : TarInfo) : string :=
  tarfile.name member +:+ TAB +:+ pretty (tarfile.size member).

Definition lines (text : string) : list string :=
  split (ascii_of_nat 10) text.

(** A string without a newline in it. *)
Definition newline_free (s : string) : Prop :=
  ascii_of_nat 10 ∉ String.list_ascii_of_string s.

(** The names of the members can be written to a text file. *)
Definition encodable_names (members : list TarInfo) : Prop :=
  Forall (λ member, utf8_valid (tarfile.name member) = true) members.

(** The keys of the objects a trace wrote to the bucket, in order. *)
Definition put_key (e : Event) : option string :=
  match e with
  | PutString key _ | PutFile _ key _ => Some key
  | _ => None
  end.

Definition put_keys (t : list Event) : list string := omap put_key t.

(** The access policy of each object a trace wrote. *)
Definition put_policy (e : Event) : option string :=
  match e with
  | PutString _ obj | PutFile _ _ obj => Some (policy obj)
  | _ => None
  end.

(** The request that creates the directory marker, and the request that
    uploads a file, as the wire contract lists them. *)
Definition directory_marker (mtime : Z) : S3Object :=
  {| body := Data "";
     headers := {[ "Content-Type" := "application/x-directory";
                   "x-amz-meta-gid" := "20";
                   "x-amz-meta-uid" := "501";
                   "x-amz-meta-mode" := "16877";
                   "x-amz-meta-mtime" := pretty mtime ]};
     policy := "private" |}.

Definition file_upload (c : Content) (mtime : Z) : S3Object :=
  {| body := c;
     headers := {[ "Content-Type" := "application/octet-stream";
                   "x-amz-meta-mtime" := pretty mtime ]};
     policy := "private" |}.

(** The user metadata of an object: its [x-amz-meta-] headers, by name. *)
Definition metadata (obj : S3Object) : gmap string string :=
  list_to_map
    (omap (λ kv, (λ k, (k, kv.2)) <$> strip_prefix "x-amz-meta-" kv.1)
       (map_to_list (headers obj))).

Definition content_type (obj : S3Object) : option string :=
  headers obj !! "Content-Type".

(** The orchestrator's sequence
    Start, Archived, Indexed, DirectoryEnsured, ArchiveUploaded,
    ManifestUploaded, Done
    as the effects of one complete run. *)
Definition linear_run (archive_path index_path cwd : string) (status : Z)
    (k0 k1 k2 : string) (o0 o1 o2 : S3Object) : list Event :=
  [ Mkstemp archive_path;
    Popen ("tar -zcvf " +:+ archive_path +:+ " *") cwd status;
    Mkstemp index_path;
    TarOpen archive_path;
    Written index_path;
    PutString k0 o0;
    PutFile archive_path k1 o1;
    GenerateUrl k1 86400;
    PutFile index_path k2 o2;
    GenerateUrl k2 86400 ].

(** Three keys share one date partition [d] under a prefix. *)
Definition share_date_partition (prefix : string) (keys : list string)
    : Prop :=
  ∃ d, keys = [ os_path_join prefix [d];
                os_path_join prefix [d; "archive.tar.gz"];
                os_path_join prefix [d; "index.tsv.txt"] ].

(** Every file and subdirectory under a directory, by its path relative to
    the directory. *)
Fixpoint paths_of (path : string) (t : Tree) : list string :=
  path ::
  match t with
  | TFile _ => []
  | TDir entries =>
      (fix below (es : list (string * Tree)) : list string :=
         match es with
         | [] => []
         | (n, t') :: es' =>
             (paths_of (path +:+ "/" +:+ n) t' ++ below es')%list
         end) entries
  end.


(** The command line [create_archive] hands to the shell. *)
Definition tar_command (tempfilename : string) : string :=
  "tar -zcvf " +:+ tempfilename +:+ " *".

(** The effects of a complete run that starts in [s], given the names of
    its two temporary files, the exit status of the packing command and
    the contents uploaded. *)
Definition run_events (H : Host) (self : DesktopArchiveManager) (s : State)
    (archive_path index_path : string) (status : Z) (c1 c2 : Content)
    : list Event :=
  let date j := strftime_Ymd (local (clock H (j + clock_reads s))) in
  let mtime j := epoch (clock H (j + clock_reads s)) in
  linear_run archive_path index_path (realpath H (local_path self)) status
    (os_path_join (remote_path self) [date 0])
    (os_path_join (remote_path self) [date 2; "archive.tar.gz"])
    (os_path_join (remote_path self) [date 4; "index.tsv.txt"])
    (directory_marker (mtime 1))
    (file_upload c1 (mtime 3))
    (file_upload c2 (mtime 5)).

(** What the packing command of a run leaves, file system and exit status,
    given the state the run starts in and the temporary file it made. *)
Definition packing (H : Host) (self : DesktopArchiveManager) (s : State)
    (archive_path : string) : gmap string Entry * Z :=
  sh H (tar_command archive_path) (realpath H (local_path self))
    (<[archive_path := Regular (Data "")]> (fs s)).

(** The archive the example host makes of the example directory. *)
Definition desktop_archive : list TarInfo :=
  [ {| tarfile.name := "a.txt"; tarfile.size := 10 |};
    {| tarfile.name := "sub"; tarfile.size := 0 |};
    {| tarfile.name := "sub/b.txt"; tarfile.size := 20 |};
    {| tarfile.name := "sub/.cache"; tarfile.size := 7 |} ].

(** A state whose file system holds the archive of the manifest example. *)
Definition example_archive : list TarInfo :=
  [ {| tarfile.name := "a.txt"; tarfile.size := 10 |};
    {| tarfile.name := "sub/b.txt"; tarfile.size := 20 |} ].

Definition state_with_archive : State :=
  initial_state {[ "/tmp/archive.tar.gz" := Regular (TarGz example_archive) ]}.

(** Archives with one member each: one whose name is not UTF-8 (the bytes
    FF 2E 74 78 74), one whose name has a newline in it. *)
Definition archive_not_utf8 : list TarInfo :=
  [ {| tarfile.name := String (ascii_of_nat 255) ".txt";
       tarfile.size := 5 |} ].

Definition archive_newline_name : list TarInfo :=
  [ {| tarfile.name := "a" +:+ NL +:+ "b"; tarfile.size := 1 |} ].

Definition state_with_members (members : list TarInfo) : State :=
  initial_state {[ "/tmp/archive.tar.gz" := Regular (TarGz members) ]}.

(** A command line that gives both keys, so that the defaults are not even
    needed, and a home directory with a credential file. *)
Definition command_line_with_keys : CommandLine :=
  {| arg_bucket := "backups"; opt_path := None;
     opt_aws_access_key := Some "AKIAEXAMPLE";
     opt_aws_secret_key := Some "s3cr3t";
     opt_bucket_prefix := None; opt_loglevel := None |}.

Definition command_line_bare : CommandLine :=
  {| arg_bucket := "backups"; opt_path := None;
     opt_aws_access_key := None; opt_aws_secret_key := None;
     opt_bucket_prefix := None; opt_loglevel := None |}.

(** The command line [backups --loglevel debug]. *)
Definition command_line_debug : CommandLine :=
  {| arg_bucket := "backups"; opt_path := None;
     opt_aws_access_key := None; opt_aws_secret_key := None;
     opt_bucket_prefix := None; opt_loglevel := Some "debug" |}.

Definition files_with_credentials : gmap string Entry :=
  <["/home/user/.passwd-s3fs" :=
      Regular (Data ("AKIAEXAMPLE:s3cr3t" +:+ NL))]> desktop_files.

(** The names of the members of the archive a call of [create_archive]
    left at the path it returned. *)
Definition archived_names (o : Outcome string) : list string :=
  match o with
  | Returned tempfilename s' =>
      match fs s' !! tempfilename with
      | Some (Regular (TarGz members)) => tarfile.name <$> members
      | _ => []
      end
  | Raised _ _ => []
  end.

(** ** Further vocabulary *)

(** The effect of one event on the bucket, and of a sequence of events: a
    PUT stores its object under its key, replacing what was there. *)
Definition apply_put (m : gmap string S3Object) (e : Event)
    : gmap string S3Object :=
  match e with
  | PutString key obj | PutFile _ key obj => <[key := obj]> m
  | _ => m
  end.

Definition apply_puts (l : list Event) (m : gmap string S3Object)
    : gmap string S3Object :=
  foldl apply_put m l.

(** A computation accounts for the bucket: from every state, the bucket it
    leaves, whether it returns or raises, is the bucket it found with the
    PUTs it recorded applied in order. *)
Definition accounted (s s' : State) : Prop :=
  ∃ l, trace s' = trace s ++ l ∧ objects s' = apply_puts l (objects s).

Definition accounts {A} (m : M A) : Prop :=
  ∀ s, accounted s (final_state (m s)).

(** A computation asks each upload of the storage client once: every
    operation it asked for either completed, and is a PUT of the trace, or
    failed and was the last thing it did. *)
Definition metered {A} (m : M A) : Prop :=
  ∀ s, ∃ l,
    trace (final_state (m s)) = trace s ++ l
    ∧ match m s with
      | Returned _ s' => requests s' = length (put_keys l) + requests s
      | Raised _ s' => requests s' ≤ S (length (put_keys l)) + requests s
      end.

(** A computation stays on the local machine: whatever its outcome, it
    leaves the bucket, the count of storage requests and the count of clock
    readings as it found them. *)
Definition offline {A} (m : M A) : Prop :=
  ∀ s, objects (final_state (m s)) = objects s
       ∧ requests (final_state (m s)) = requests s
       ∧ clock_reads (final_state (m s)) = clock_reads s.

(** A file system with one empty file, as a packing command that could not
    run leaves its output. *)
Definition files_with_empty : gmap string Entry :=
  {[ "/tmp/empty" := Regular (Data "") ]}.

(** A host whose storage back end answers every request with a server
    error: the client gives up with BotoServerError. *)
Definition host_s3_down : Host :=
  {| clock := clock host_2024_03_05;
     tempnames := tempnames host_2024_03_05;
     realpath := realpath host_2024_03_05;
     home := home host_2024_03_05;
     sh := sh host_2024_03_05;
     tarfile_failure := tarfile_failure host_2024_03_05;
     s3_up := λ _, false;
     s3_error := λ _, BotoServerError;
     ambient_credentials := ambient_credentials host_2024_03_05;
     sign_url := sign_url host_2024_03_05 |}.

(** A string without a path separator in it. *)
Definition slash_free (s : string) : Prop :=
  "/"%char ∉ String.list_ascii_of_string s.

(** Managers whose bucket prefix is empty, or ends with a slash. *)
Definition manager_no_prefix : DesktopArchiveManager :=
  {| local_path := "/home/user/Desktop/"; remote_path := "";
     bucket := "backups" |}.

Definition manager_slash_prefix : DesktopArchiveManager :=
  {| local_path := "/home/user/Desktop/"; remote_path := "desktop/";
     bucket := "backups" |}.

(** Every character of a string satisfies a property. *)
Definition all_chars (P : ascii → Prop) (s : string) : Prop :=
  Forall P (String.list_ascii_of_string s).

(** A white-space character of ASCII. *)
Definition is_blank (c : ascii) : Prop := c ∈ whitespace.

(** A character of a key in the credential file: a printable ASCII
    character (21 to 7E) other than the field separator. *)
Definition key_char (c : ascii) : Prop :=
  (33 ≤ N_of_ascii c ≤ 126)%N ∧ (c ≠ ":"%char).

(** The path of the credential file on a host. *)
Definition passwd_s3fs (H : Host) : string := home H +:+ "/.passwd-s3fs".

(** A credential file in the three-field form
    [bucket:access key:secret key]. *)
Definition files_with_bucket_credentials : gmap string Entry :=
  <["/home/user/.passwd-s3fs" :=
      Regular (Data ("backups:AKIAEXAMPLE:s3cr3t" +:+ NL))]> desktop_files.

(** * Properties *)

(** ** Examples of the path and date functions *)

Example strftime_example :
  strftime_Ymd {| year := 2024; month := 3; day := 5 |} = "2024-03-05".
Proof. vm_compute. reflexivity. Qed.

Example join_example :
  os_path_join "desktop" ["2024-03-05"; "archive.tar.gz"]
  = "desktop/2024-03-05/archive.tar.gz".
Proof. vm_compute. reflexivity. Qed.

Example join_no_component :
  os_path_join "desktop" ["2024-03-05"] = "desktop/2024-03-05".
Proof. vm_compute. reflexivity. Qed.

Example strip_split_example :
  split ":" (strip (" AKIA:s3cr3t" +:+ String (ascii_of_nat 10) ""))
  = ["AKIA"; "s3cr3t"].
Proof. vm_compute. reflexivity. Qed.

(** ** Strings *)

Lemma append_cons (x : ascii) (a b : string) :
  String x a +:+ b = String x (a +:+ b).
Proof. reflexivity. Qed.

Lemma append_assoc (a b c : string) : (a +:+ b) +:+ c = a +:+ (b +:+ c).
Proof.
  induction a as [|x a IH]; [done|]. rewrite !append_cons. by f_equal.
Qed.

Lemma append_nil_r (a : string) : a +:+ "" = a.
Proof. induction a as [|x a IH]; [done|]. rewrite append_cons. by f_equal. Qed.

Lemma append_length (a b : string) :
  String.length (a +:+ b) = String.length a + String.length b.
Proof.
  induction a as [|x a IH]; [done|]. rewrite append_cons. simpl. by f_equal.
Qed.

Lemma strip_prefix_app (pre s : string) : strip_prefix pre (pre +:+ s) = Some s.
Proof.
  induction pre as [|a pre IH]; [by destruct s|].
  rewrite append_cons. simpl. by rewrite bool_decide_eq_true_2.
Qed.

Lemma list_ascii_of_append (a b : string) :
  String.list_ascii_of_string (a +:+ b)
  = String.list_ascii_of_string a ++ String.list_ascii_of_string b.
Proof.
  induction a as [|c a IH]; [done|]. rewrite append_cons. simpl. by f_equal.
Qed.

(** Splitting at a separator: the text before the first separator is the
    first field. *)
Lemma split_first_field (sep : ascii) (a b : string) :
  sep ∉ String.list_ascii_of_string a →
  split sep (a +:+ String sep b) = a :: split sep b.
Proof.
  induction a as [|c a IH]; intros Ha.
  - change ("" +:+ String sep b) with (String sep b).
    cbn [split]. by rewrite bool_decide_eq_true_2.
  - rewrite append_cons. cbn [String.list_ascii_of_string split] in *.
    apply not_elem_of_cons in Ha as [Hc Ha].
    rewrite bool_decide_eq_false_2 by done. by rewrite IH.
Qed.

Lemma split_no_separator (sep : ascii) (s : string) :
  sep ∉ String.list_ascii_of_string s → split sep s = [s].
Proof.
  induction s as [|c s IH]; [done|].
  cbn [String.list_ascii_of_string split].
  intros [Hc Hs]%not_elem_of_cons. rewrite bool_decide_eq_false_2 by done.
  by rewrite IH.
Qed.

(** ** Text *)

Lemma utf8_sequences_app (l1 l2 : list N) :
  utf8_sequences l1 = true → utf8_sequences l2 = true →
  utf8_sequences (l1 ++ l2) = true.
Proof.
  intros H1 H2. remember (length l1) as n eqn:Hn. revert l1 Hn H1.
  induction n as [n IH] using lt_wf_ind. intros l1 -> H1.
  destruct l1 as [|b0 l1]; [done|].
  cbn [utf8_sequences app] in *.
  destruct (b0 <? 128)%N.
  { eapply IH; [|done..]. simpl. lia. }
  destruct (in_range 194 223 b0).
  { destruct l1 as [|b1 l1]; [done|]. cbn [app].
    apply andb_true_iff in H1 as [-> H1]. cbn [andb].
    eapply IH; [|done..]. simpl. lia. }
  destruct (in_range 224 239 b0).
  { destruct l1 as [|b1 [|b2 l1]]; [done..|]. cbn [app].
    apply andb_true_iff in H1 as [[-> ->]%andb_true_iff H1]. cbn [andb].
    eapply IH; [|done..]. simpl. lia. }
  destruct (in_range 240 244 b0); [|done].
  destruct l1 as [|b1 [|b2 [|b3 l1]]]; [done..|]. cbn [app].
  apply andb_true_iff in H1
    as [[[-> ->]%andb_true_iff ->]%andb_true_iff H1]. cbn [andb].
  eapply IH; [|done..]. simpl. lia.
Qed.

Lemma utf8_valid_app (a b : string) :
  utf8_valid a = true → utf8_valid b = true → utf8_valid (a +:+ b) = true.
Proof.
  unfold utf8_valid. rewrite list_ascii_of_append, fmap_app.
  apply utf8_sequences_app.
Qed.

(** A string of ASCII characters is its own encoding. *)
Lemma utf8_valid_ascii (s : string) :
  all_chars (λ c, (N_of_ascii c < 128)%N) s → utf8_valid s = true.
Proof.
  unfold all_chars, utf8_valid.
  induction 1 as [|c l Hc _ IH]; [done|].
  cbn [fmap list_fmap utf8_sequences].
  by apply N.ltb_lt in Hc as ->.
Qed.

(** The decimal digits of a number. *)
Lemma pretty_N_go_chars (P : ascii → Prop) (x : N) :
  (∀ y, P (pretty_N_char y)) →
  ∀ s, all_chars P s → all_chars P (pretty_N_go x s).
Proof.
  intros Hdigit. induction (N.lt_wf_0 x) as [x _ IH]. intros s Hs.
  destruct (decide (x = 0)%N) as [->|Hx]; [by rewrite pretty_N_go_0|].
  rewrite pretty_N_go_step by lia. apply IH.
  - apply N.div_lt; lia.
  - apply Forall_cons. split; [apply Hdigit|done].
Qed.

Lemma pretty_N_chars (P : ascii → Prop) (x : N) :
  (∀ y, P (pretty_N_char y)) → all_chars P (pretty x).
Proof.
  intros Hdigit. unfold pretty, pretty_N. case_decide.
  - apply Forall_cons. split; [apply (Hdigit 0%N)|constructor].
  - apply pretty_N_go_chars; [done|constructor].
Qed.

Lemma all_chars_app (P : ascii → Prop) (a b : string) :
  all_chars P (a +:+ b) ↔ all_chars P a ∧ all_chars P b.
Proof. unfold all_chars. by rewrite list_ascii_of_append, Forall_app. Qed.

Lemma pretty_N_char_ascii (y : N) : (N_of_ascii (pretty_N_char y) < 128)%N.
Proof. unfold pretty_N_char. by repeat case_match. Qed.

Lemma pretty_N_char_not_newline (y : N) : pretty_N_char y ≠ ascii_of_nat 10.
Proof. unfold pretty_N_char. by repeat case_match. Qed.

(** A line of the manifest can be written when the name of its member
    can. *)
Lemma manifest_line_encodable (member : TarInfo) :
  utf8_valid (tarfile.name member) = true →
  utf8_valid (manifest_line member) = true.
Proof.
  intros Hname. unfold manifest_line.
  apply utf8_valid_app; [done|]. apply utf8_valid_ascii.
  apply all_chars_app. split; [by repeat constructor|].
  apply all_chars_app. split; [|by repeat constructor].
  apply pretty_N_chars, pretty_N_char_ascii.
Qed.

Lemma newline_free_all_chars (s : string) :
  newline_free s ↔ all_chars (λ c, c ≠ ascii_of_nat 10) s.
Proof.
  unfold newline_free, all_chars. rewrite Forall_forall. split.
  - intros Hs c Hc ->. by apply Hs.
  - intros Hs Hin. by apply (Hs _ Hin).
Qed.

(** The fields of a member whose name has no newline are one line. *)
Lemma manifest_fields_newline_free (member : TarInfo) :
  newline_free (tarfile.name member) → newline_free (manifest_fields member).
Proof.
  rewrite !newline_free_all_chars. intros Hname. unfold manifest_fields.
  apply all_chars_app. split; [done|].
  apply all_chars_app. split; [by repeat constructor|].
  apply pretty_N_chars, pretty_N_char_not_newline.
Qed.

Lemma manifest_line_fields (member : TarInfo) :
  manifest_line member = manifest_fields member +:+ NL.
Proof.
  unfold manifest_line, manifest_fields. by rewrite !append_assoc.
Qed.

(** The lines of a manifest whose names have no newline: the fields of the
    members, one line each, in their order, and nothing after the last
    newline. *)
Lemma lines_manifest (members : list TarInfo) :
  Forall (λ member, newline_free (tarfile.name member)) members →
  lines (manifest members) = (manifest_fields <$> members) ++ [""].
Proof.
  unfold lines, manifest.
  induction 1 as [|member rest Hname _ IH]; [done|].
  cbn [fmap list_fmap foldr app]. rewrite manifest_line_fields.
  rewrite append_assoc. unfold NL at 1.
  rewrite append_cons. change ("" +:+ ?x) with x.
  rewrite split_first_field by (by apply manifest_fields_newline_free).
  by rewrite <- IH.
Qed.

(** ** Temporary files *)

Lemma fresh_name_free H attempts pos files tempfilename pos' :
  fresh_name H attempts pos files = Some (tempfilename, pos') →
  files !! tempfilename = None.
Proof.
  revert pos. induction attempts as [|k IH]; intros pos; simpl; [done|].
  destruct (files !! tempnames H pos) eqn:E; [apply IH|].
  by intros [= <- <-].
Qed.

#[local] Opaque TMP_MAX.

(** What [mkstemp] does to the state. *)
Lemma mkstemp_returned H s tempfilename s' :
  mkstemp H s = Returned tempfilename s' →
  fs s !! tempfilename = None
  ∧ fs s' = <[tempfilename := Regular (Data "")]> (fs s)
  ∧ trace s' = trace s ++ [Mkstemp tempfilename]
  ∧ clock_reads s' = clock_reads s
  ∧ requests s' = requests s
  ∧ objects s' = objects s.
Proof.
  unfold mkstemp.
  destruct (fresh_name H TMP_MAX (names_drawn s) (fs s)) as [[t pos]|] eqn:E;
    [|done].
  intros [= <- <-]. simpl. split; [by eapply fresh_name_free|done].
Qed.

Lemma mkstemp_raised H s e s' : mkstemp H s = Raised e s' → s' = s.
Proof.
  unfold mkstemp.
  destruct (fresh_name H TMP_MAX (names_drawn s) (fs s)) as [[t pos]|];
    [done|]. by intros [= _ <-].
Qed.

Lemma mkstemp_fresh H s tempfilename pos :
  fresh_name H TMP_MAX (names_drawn s) (fs s) = Some (tempfilename, pos) →
  ∃ s', mkstemp H s = Returned tempfilename s'.
Proof. intros E. unfold mkstemp. rewrite E. eauto. Qed.

(** ** The steps of the workflow, one by one *)

(** [create_archive] returns exactly when [mkstemp] finds a name and the
    source path is a directory; what the shell did is not looked at. *)
Lemma create_archive_returned H self path s tempfilename s' :
  create_archive H self path s = Returned tempfilename s' →
  ∃ pos entries,
    fresh_name H TMP_MAX (names_drawn s) (fs s) = Some (tempfilename, pos)
    ∧ fs s !! realpath H path = Some (Directory entries)
    ∧ fs s' = (sh H (tar_command tempfilename) (realpath H path)
                 (<[tempfilename := Regular (Data "")]> (fs s))).1
    ∧ trace s' = trace s ++
        [Mkstemp tempfilename;
         Popen (tar_command tempfilename) (realpath H path)
           (sh H (tar_command tempfilename) (realpath H path)
              (<[tempfilename := Regular (Data "")]> (fs s))).2]
    ∧ clock_reads s' = clock_reads s.
Proof.
  unfold create_archive, bind, log, mkstemp, subprocess_Popen, proc_wait, ret,
    emit, tar_command. simpl.
  destruct (fresh_name H TMP_MAX (names_drawn s) (fs s)) as [[t pos]|] eqn:E;
    simpl; [|done].
  pose proof (fresh_name_free _ _ _ _ _ _ E) as Hfree.
  destruct (decide (realpath H path = t)) as [->|Hne].
  { by rewrite lookup_insert_eq. }
  rewrite lookup_insert_ne by done.
  destruct (fs s !! realpath H path) as [[c|entries]|] eqn:Hdir; try done.
  destruct (sh H _ _ _) as [files status] eqn:Hsh. simpl.
  intros [= <- <-]. simpl. exists pos, entries.
  rewrite Hsh. simpl. by rewrite <- app_assoc.
Qed.

Lemma create_archive_succeeds H self path s tempfilename pos entries :
  fresh_name H TMP_MAX (names_drawn s) (fs s) = Some (tempfilename, pos) →
  fs s !! realpath H path = Some (Directory entries) →
  ∃ s', create_archive H self path s = Returned tempfilename s'.
Proof.
  intros E Hdir.
  pose proof (fresh_name_free _ _ _ _ _ _ E) as Hfree.
  unfold create_archive, bind, log, mkstemp, subprocess_Popen, proc_wait, ret,
    emit. simpl. rewrite E. simpl.
  rewrite lookup_insert_ne by congruence. rewrite Hdir.
  destruct (sh H _ _ _) as [files status]. simpl. eauto.
Qed.

(** When [create_archive] raises, at most the temporary file was made. *)
Lemma create_archive_raised H self path s e s' :
  create_archive H self path s = Raised e s' →
  trace s' = trace s ∨ ∃ tempfilename, trace s' = trace s ++ [Mkstemp tempfilename].
Proof.
  unfold create_archive, bind, log, mkstemp, subprocess_Popen, proc_wait, ret,
    emit. simpl.
  destruct (fresh_name H TMP_MAX (names_drawn s) (fs s)) as [[t pos]|];
    simpl; [|intros [= _ <-]; by left].
  destruct (_ !! realpath H path) as [[c|entries]|];
    try (intros [= _ <-]; right; by exists t).
  destruct (sh H _ _ _) as [files status]. simpl. done.
Qed.

Lemma create_archive_names_drawn H self path s tempfilename s' :
  create_archive H self path s = Returned tempfilename s' →
  fresh_name H TMP_MAX (names_drawn s) (fs s)
  = Some (tempfilename, names_drawn s').
Proof.
  unfold create_archive, bind, log, mkstemp, subprocess_Popen, proc_wait, ret,
    emit. simpl.
  destruct (fresh_name H TMP_MAX (names_drawn s) (fs s)) as [[t pos]|];
    simpl; [|done].
  destruct (_ !! realpath H path) as [[c|entries]|]; try done.
  destruct (sh H _ _ _) as [files status]. simpl. by intros [= <- <-].
Qed.

(** The loop appends to the file and touches nothing else; when it
    returns, what it appended is the manifest of the members. *)
Lemma write_members_outcome out members : ∀ s written,
  fs s !! out = Some (Regular (Data written)) →
  match write_members out members s with
  | Returned _ s' =>
      fs s' = <[out := Regular (Data (written +:+ manifest members))]> (fs s)
      ∧ trace s' = trace s
      ∧ clock_reads s' = clock_reads s
  | Raised e s' =>
      (∃ partial, fs s' = <[out := Regular (Data partial)]> (fs s))
      ∧ trace s' = trace s
      ∧ clock_reads s' = clock_reads s
  end.
Proof.
  induction members as [|member rest IH]; intros s written Hout.
  - simpl. unfold manifest. simpl. rewrite append_nil_r.
    by rewrite insert_id.
  - cbn [write_members]. unfold bind, file_write.
    destruct (utf8_valid _).
    2: { split; [|done]. exists written. by rewrite insert_id. }
    rewrite Hout.
    specialize (IH (set_fs <[out := Regular (Data (written +:+
                manifest_line member))]> s) (written +:+ manifest_line member)).
    unfold manifest_line, TAB, NL in IH.
    destruct (write_members out rest _) as [[] s'|e s']; simpl in IH.
    + destruct IH as (Hfs & Htrace & Hclock); [apply lookup_insert_eq|].
      split; [|done]. rewrite Hfs, insert_insert_eq.
      unfold manifest. cbn [fmap list_fmap foldr].
      by rewrite append_assoc.
    + destruct IH as ((partial & Hfs) & Htrace & Hclock);
        [apply lookup_insert_eq|].
      split; [|done]. exists partial. by rewrite Hfs, insert_insert_eq.
Qed.

(** With names that can be written the loop runs to its end. *)
Lemma write_members_succeeds out members : ∀ s written,
  encodable_names members →
  fs s !! out = Some (Regular (Data written)) →
  ∃ s', write_members out members s = Returned tt s'.
Proof.
  induction members as [|member rest IH]; intros s written Hnames Hout.
  - by exists s.
  - apply Forall_cons in Hnames as [Hname Hnames].
    cbn [write_members]. unfold bind, file_write.
    pose proof (manifest_line_encodable _ Hname) as Hline.
    unfold manifest_line, TAB, NL in Hline. rewrite Hline, Hout.
    eapply IH; [done|]. simpl. apply lookup_insert_eq.
Qed.

(** [create_index_from_archive], step by step: the temporary file, the
    opening of the archive, and the block that writes the index. *)
Lemma create_index_steps H self archive_path s :
  create_index_from_archive H self archive_path s
  = match mkstemp H (final_state (log DEBUG "Generating archive index." s)) with
    | Returned tempfilename s1 =>
        match tarfile_open H archive_path s1 with
        | Returned archive s2 =>
            (with_open_w tempfilename (λ out,
               let! members := getmembers H archive in
               write_members out members);;;
             log DEBUG ("Index written to " +:+ tempfilename +:+ ".");;;
             ret tempfilename) s2
        | Raised e s2 => Raised e s2
        end
    | Raised e s1 => Raised e s1
    end.
Proof. reflexivity. Qed.

(** The block that writes the index of an archive. *)
Lemma write_index_outcome H tempfilename archive s :
  fs s !! tempfilename = Some (Regular (Data "")) →
  match with_open_w tempfilename (λ out,
          let! members := getmembers H archive in
          write_members out members) s with
  | Returned _ s' =>
      (∃ members, archive = TarGz members
         ∧ fs s' = <[tempfilename := Regular (Data (manifest members))]> (fs s))
      ∧ trace s' = trace s ++ [Written tempfilename]
      ∧ clock_reads s' = clock_reads s
  | Raised e s' =>
      (∃ partial, fs s' = <[tempfilename := Regular (Data partial)]> (fs s))
      ∧ (∀ d, archive = Data d → fs s' = fs s)
      ∧ trace s' = trace s ++ [Written tempfilename]
      ∧ clock_reads s' = clock_reads s
  end.
Proof.
  intros Hfile. unfold with_open_w, bind, open_w. rewrite Hfile.
  assert (set_fs <[tempfilename := Regular (Data "")]> s
          = set_fs (λ files, files) s) as ->.
  { unfold set_fs. f_equal. by apply insert_id. }
  destruct archive as [d|members]; unfold getmembers.
  - assert (∃ e, (match tar_failure H d with
                  | OpenFails e | MembersFail e => raise e
                  end : M (list TarInfo)) = raise e) as [e ->].
    { destruct (tar_failure H d) as [e|e]; by exists e. }
    unfold raise. simpl. split; [|done].
    exists "". by rewrite insert_id.
  - unfold ret.
    pose proof (write_members_outcome tempfilename members
                  (set_fs (λ files, files) s) "" Hfile) as Hloop.
    destruct (write_members tempfilename members _) as [[] s'|e s'];
      simpl in *.
    + destruct Hloop as (Hfs & Htrace & Hclock).
      split; [|by rewrite Htrace]. by exists members.
    + destruct Hloop as (Hfs & Htrace & Hclock).
      split; [done|]. split; [done|]. by rewrite Htrace.
Qed.

Lemma write_index_succeeds H tempfilename members s :
  encodable_names members →
  fs s !! tempfilename = Some (Regular (Data "")) →
  ∃ s', with_open_w tempfilename (λ out,
          let! members := getmembers H (TarGz members) in
          write_members out members) s = Returned tt s'.
Proof.
  intros Hnames Hfile. unfold with_open_w, bind, open_w, getmembers, ret.
  rewrite Hfile.
  edestruct (write_members_succeeds tempfilename members) as (s' & ->);
    [done|simpl; apply lookup_insert_eq|].
  unfold file_close, emit. by eexists.
Qed.

(** [create_index_from_archive] on a file that holds an archive whose
    member names can be written. *)
Lemma create_index_succeeds H self archive_path s members index_path pos :
  fs s !! archive_path = Some (Regular (TarGz members)) →
  fresh_name H TMP_MAX (names_drawn s) (fs s) = Some (index_path, pos) →
  encodable_names members →
  ∃ s', create_index_from_archive H self archive_path s
          = Returned index_path s'
    ∧ fs s' = <[index_path := Regular (Data (manifest members))]> (fs s)
    ∧ trace s' = trace s ++
        [Mkstemp index_path; TarOpen archive_path; Written index_path]
    ∧ clock_reads s' = clock_reads s.
Proof.
  intros Harchive E Hnames.
  pose proof (fresh_name_free _ _ _ _ _ _ E) as Hfree.
  rewrite create_index_steps. unfold mkstemp, log. simpl. rewrite E.
  unfold tarfile_open. simpl.
  rewrite lookup_insert_ne by congruence. rewrite Harchive.
  unfold bind at 1, emit at 1. unfold ret at 1. unfold bind at 1.
  match goal with
  | |- ∃ _, match with_open_w _ _ ?s2 with _ => _ end = _ ∧ _ =>
      destruct (write_index_succeeds H index_path members s2 Hnames)
        as (s3 & Hrun); [apply lookup_insert_eq|];
      pose proof (write_index_outcome H index_path (TarGz members) s2
                    ltac:(apply lookup_insert_eq)) as Hw;
      rewrite Hrun in Hw |- *
  end.
  destruct Hw as ((ms & [= <-] & Hfs) & Htrace & Hclock).
  unfold bind, log, ret. simpl. eexists. split; [done|]. simpl.
  rewrite Hfs, Htrace, Hclock. simpl. rewrite !insert_insert_eq.
  by rewrite <- !app_assoc.
Qed.

(** What [mkstemp] leaves for the steps after it. *)
Lemma mkstemp_outcome H s :
  match mkstemp H s with
  | Returned tempfilename s' =>
      (∃ pos, fresh_name H TMP_MAX (names_drawn s) (fs s)
              = Some (tempfilename, pos))
      ∧ fs s !! tempfilename = None
      ∧ fs s' = <[tempfilename := Regular (Data "")]> (fs s)
      ∧ trace s' = trace s ++ [Mkstemp tempfilename]
      ∧ clock_reads s' = clock_reads s
  | Raised e s' => e = FileExistsError ∧ s' = s
  end.
Proof.
  unfold mkstemp.
  destruct (fresh_name H TMP_MAX (names_drawn s) (fs s)) as [[t pos]|] eqn:E;
    [|done].
  simpl. split; [by exists pos|]. split; [by eapply fresh_name_free|done].
Qed.

(** What [tarfile.open] leaves: nothing but the event. *)
Lemma tarfile_open_outcome H archive_path s :
  match tarfile_open H archive_path s with
  | Returned archive s' =>
      fs s !! archive_path = Some (Regular archive)
      ∧ fs s' = fs s
      ∧ trace s' = trace s ++ [TarOpen archive_path]
      ∧ clock_reads s' = clock_reads s
  | Raised e s' =>
      s' = s
      ∧ (∀ members, fs s !! archive_path ≠ Some (Regular (TarGz members)))
  end.
Proof.
  unfold tarfile_open.
  destruct (fs s !! archive_path) as [[[d|members]|entries]|]; try done.
  by destruct (tar_failure H d).
Qed.

Lemma create_index_returned H self archive_path s index_path s' :
  create_index_from_archive H self archive_path s = Returned index_path s' →
  trace s' = trace s ++
    [Mkstemp index_path; TarOpen archive_path; Written index_path]
  ∧ clock_reads s' = clock_reads s.
Proof.
  rewrite create_index_steps.
  pose proof (mkstemp_outcome H
    (final_state (log DEBUG "Generating archive index." s))) as Hm.
  destruct (mkstemp H _) as [t s1|e s1]; [|done].
  destruct Hm as (_ & _ & Hfs1 & Ht1 & Hc1).
  pose proof (tarfile_open_outcome H archive_path s1) as Ho.
  destruct (tarfile_open H archive_path s1) as [archive s2|e s2]; [|done].
  destruct Ho as (_ & Hfs2 & Ht2 & Hc2).
  unfold bind at 1.
  pose proof (write_index_outcome H t archive s2) as Hw.
  destruct (with_open_w t _ s2) as [[] s3|e s3]; [|done].
  destruct Hw as (_ & Ht3 & Hc3).
  { rewrite Hfs2, Hfs1. apply lookup_insert_eq. }
  unfold bind, log, ret. simpl. intros [= <- <-]. simpl.
  rewrite Ht3, Ht2, Ht1, Hc3, Hc2, Hc1. simpl. by rewrite <- !app_assoc.
Qed.

(** When [create_index_from_archive] raises, it stopped at the temporary
    file, at the opening of the archive, or in the block that writes the
    index, which closed the file on its way out. *)
Lemma create_index_raised H self archive_path s e s' :
  create_index_from_archive H self archive_path s = Raised e s' →
  trace s' = trace s
  ∨ ∃ index_path,
      trace s' = trace s ++ [Mkstemp index_path]
      ∨ trace s' = trace s ++
          [Mkstemp index_path; TarOpen archive_path; Written index_path].
Proof.
  rewrite create_index_steps.
  pose proof (mkstemp_outcome H
    (final_state (log DEBUG "Generating archive index." s))) as Hm.
  destruct (mkstemp H _) as [t s1|e1 s1].
  2: { destruct Hm as [_ ->]. intros [= _ <-]. by left. }
  destruct Hm as (_ & _ & Hfs1 & Ht1 & Hc1).
  pose proof (tarfile_open_outcome H archive_path s1) as Ho.
  destruct (tarfile_open H archive_path s1) as [archive s2|e2 s2].
  2: { destruct Ho as [-> _]. intros [= _ <-]. right. exists t. by left. }
  destruct Ho as (_ & Hfs2 & Ht2 & Hc2).
  unfold bind at 1.
  pose proof (write_index_outcome H t archive s2) as Hw.
  destruct (with_open_w t _ s2) as [[] s3|e3 s3]; [done|].
  destruct Hw as (_ & _ & Ht3 & Hc3).
  { rewrite Hfs2, Hfs1. apply lookup_insert_eq. }
  intros [= _ <-]. right. exists t. right.
  rewrite Ht3, Ht2, Ht1. simpl. by rewrite <- !app_assoc.
Qed.

(** A call of [create_index_from_archive] that returned found an archive
    and left its manifest in a file that did not exist before. *)
Lemma create_index_returned_archive H self archive_path s index_path s' :
  create_index_from_archive H self archive_path s = Returned index_path s' →
  ∃ members pos,
    fs s !! archive_path = Some (Regular (TarGz members))
    ∧ fresh_name H TMP_MAX (names_drawn s) (fs s) = Some (index_path, pos)
    ∧ fs s !! index_path = None
    ∧ fs s' = <[index_path := Regular (Data (manifest members))]> (fs s).
Proof.
  rewrite create_index_steps.
  pose proof (mkstemp_outcome H
    (final_state (log DEBUG "Generating archive index." s))) as Hm.
  destruct (mkstemp H _) as [t s1|e s1]; [|done].
  destruct Hm as ([pos Hfresh] & Hfree & Hfs1 & _). simpl in Hfresh, Hfree, Hfs1.
  pose proof (tarfile_open_outcome H archive_path s1) as Ho.
  destruct (tarfile_open H archive_path s1) as [archive s2|e s2]; [|done].
  destruct Ho as (Harchive & Hfs2 & _).
  unfold bind at 1.
  pose proof (write_index_outcome H t archive s2) as Hw.
  destruct (with_open_w t _ s2) as [[] s3|e s3]; [|done].
  destruct Hw as ((members & -> & Hfs3) & _).
  { rewrite Hfs2, Hfs1. apply lookup_insert_eq. }
  unfold bind, log, ret. simpl. intros [= <- <-]. simpl.
  exists members, pos. rewrite Hfs1 in Harchive.
  destruct (decide (archive_path = t)) as [->|Hne].
  { by rewrite lookup_insert_eq in Harchive. }
  rewrite lookup_insert_ne in Harchive by done.
  split; [done|]. split; [done|]. split; [done|].
  by rewrite Hfs3, Hfs2, Hfs1, insert_insert_eq.
Qed.

(** [get_prefix] reads the clock once and cannot fail. *)
Lemma get_prefix_returns H self components s :
  ∃ s', get_prefix H self components s
        = Returned
            (os_path_join (remote_path self)
               (strftime_Ymd (local (clock H (clock_reads s))) :: components))
            s'
    ∧ trace s' = trace s
    ∧ clock_reads s' = S (clock_reads s)
    ∧ requests s' = requests s
    ∧ fs s' = fs s
    ∧ objects s' = objects s.
Proof. eexists. unfold get_prefix, datetime_now, read_clock, bind, ret. done. Qed.

(** [create_directory] either stores the marker or fails on the request. *)
Lemma create_directory_outcome H self prefix s :
  match create_directory H self prefix s with
  | Returned _ s' =>
      s3_up H (requests s) = true
      ∧ objects s' = <[prefix :=
           directory_marker (epoch (clock H (clock_reads s)))]> (objects s)
      ∧ trace s' = trace s ++
          [PutString prefix
             (directory_marker (epoch (clock H (clock_reads s))))]
      ∧ clock_reads s' = S (clock_reads s)
      ∧ requests s' = S (requests s)
      ∧ fs s' = fs s
  | Raised e s' =>
      s3_up H (requests s) = false ∧ e = s3_error H (requests s)
      ∧ trace s' = trace s ∧ objects s' = objects s
      ∧ requests s' = S (requests s)
      ∧ fs s' = fs s
  end.
Proof.
  unfold create_directory, int_time_time, read_clock, set_contents_from_string,
    s3_request, bind, ret, modify, emit, log. simpl.
  by destruct (s3_up H (requests s)).
Qed.

(** [store_file_at_path] reads the file, then stores it or fails on the
    request. *)
Lemma store_file_at_path_outcome H self local remote s :
  match store_file_at_path H self local remote s with
  | Returned key s' =>
      key = remote
      ∧ s3_up H (requests s) = true
      ∧ ∃ c, fs s !! local = Some (Regular c)
          ∧ objects s' = <[remote :=
               file_upload c (epoch (clock H (clock_reads s)))]> (objects s)
          ∧ trace s' = trace s ++
              [PutFile local remote
                 (file_upload c (epoch (clock H (clock_reads s))))]
          ∧ clock_reads s' = S (clock_reads s)
          ∧ requests s' = S (requests s)
          ∧ fs s' = fs s
  | Raised e s' =>
      trace s' = trace s ∧ objects s' = objects s
      ∧ fs s' = fs s
      ∧ ((e = IOError local ∧ requests s' = requests s
          ∧ ∀ c, fs s !! local ≠ Some (Regular c))
         ∨ (e = s3_error H (requests s) ∧ s3_up H (requests s) = false
            ∧ requests s' = S (requests s)))
  end.
Proof.
  unfold store_file_at_path, int_time_time, read_clock,
    set_contents_from_filename, read_file, s3_request, bind, ret, modify,
    emit, log. simpl.
  destruct (fs s !! local) as [[c|entries]|] eqn:Hfile; simpl;
    try (split; [done|]; split; [done|]; split; [done|]; by left).
  destruct (s3_up H (requests s)); simpl; eauto 12.
Qed.

Lemma generate_url_returns H key expires_in s :
  ∃ s', generate_url H key expires_in s
        = Returned (sign_url H key expires_in) s'
    ∧ trace s' = trace s ++ [GenerateUrl key expires_in]
    ∧ clock_reads s' = clock_reads s
    ∧ requests s' = requests s
    ∧ fs s' = fs s
    ∧ objects s' = objects s.
Proof. eexists. unfold generate_url, bind, emit, ret. done. Qed.

Lemma log_returns lvl msg s :
  ∃ s', log lvl msg s = Returned tt s'
    ∧ trace s' = trace s
    ∧ clock_reads s' = clock_reads s
    ∧ requests s' = requests s
    ∧ fs s' = fs s
    ∧ objects s' = objects s.
Proof. eexists. unfold log. done. Qed.

(** ** A whole run *)

(** Every run of [archive_files] walks the linear sequence from its start;
    it reaches the end exactly when it returns. *)
Lemma archive_files_run H self s :
  ∃ archive_path index_path status c1 c2 l,
    trace (final_state (archive_files H self s)) = trace s ++ l
    ∧ l `prefix_of` run_events H self s archive_path index_path status c1 c2
    ∧ (∀ s', archive_files H self s = Returned tt s' →
         l = run_events H self s archive_path index_path status c1 c2)
    ∧ (∀ e s', archive_files H self s = Raised e s' → length l < 10).
Proof.
  unfold archive_files, bind.
  destruct (create_archive H self (local_path self) s) as [a s1|e s1] eqn:Ha.
  2: { apply create_archive_raised in Ha as [Ht|[t Ht]].
       - exists "", "", 0%Z, (Data ""), (Data ""), []. simpl.
         rewrite Ht, app_nil_r.
         repeat split; [apply prefix_nil|done|intros; simpl; lia].
       - exists t, "", 0%Z, (Data ""), (Data ""), [Mkstemp t]. simpl.
         repeat split; [done|by eexists|done|intros; simpl; lia]. }
  apply create_archive_returned in Ha
    as (pos & entries & _ & _ & _ & Ht1 & Hc1).
  set (st := (sh H (tar_command a) (realpath H (local_path self)) _).2) in Ht1.
  destruct (create_index_from_archive H self a s1) as [i s2|e s2] eqn:Hi.
  2: { apply create_index_raised in Hi as [Ht|[t [Ht|Ht]]]; rewrite Ht1 in Ht.
       - exists a, "", st, (Data ""), (Data ""),
           [Mkstemp a; Popen (tar_command a) (realpath H (local_path self)) st].
         simpl.
         repeat split; [done|by eexists|done|intros; simpl; lia].
       - exists a, t, st, (Data ""), (Data ""),
           [Mkstemp a; Popen (tar_command a) (realpath H (local_path self)) st;
            Mkstemp t].
         simpl. rewrite Ht, <- app_assoc.
         repeat split; [by eexists|done|intros; simpl; lia].
       - exists a, t, st, (Data ""), (Data ""),
           [Mkstemp a; Popen (tar_command a) (realpath H (local_path self)) st;
            Mkstemp t; TarOpen a; Written t].
         simpl. rewrite Ht, <- app_assoc.
         repeat split; [by eexists|done|intros; simpl; lia]. }
  apply create_index_returned in Hi as [Ht2 Hc2].
  rewrite Ht1, <- app_assoc in Ht2. rewrite Hc1 in Hc2. simpl in Ht2.
  destruct (get_prefix_returns H self [] s2) as (s3 & -> & Ht3 & Hc3 & _).
  rewrite Ht2 in Ht3. rewrite Hc2 in Hc3 |- *.
  pose proof (create_directory_outcome H self
    (os_path_join (remote_path self)
       [strftime_Ymd (local (clock H (clock_reads s)))]) s3) as Hd.
  destruct (create_directory H self _ s3) as [[] s4|e s4].
  2: { destruct Hd as (_ & _ & Ht4 & _). rewrite Ht3 in Ht4.
       exists a, i, st, (Data ""), (Data "").
       eexists. simpl. split; [exact Ht4|].
       repeat split; [by eexists|done|intros; simpl; lia]. }
  destruct Hd as (_ & _ & Ht4 & Hc4 & _).
  rewrite Ht3, Hc3, <- app_assoc in Ht4. rewrite Hc3 in Hc4. simpl in Ht4.
  destruct (get_prefix_returns H self ["archive.tar.gz"] s4)
    as (s5 & -> & Ht5 & Hc5 & _).
  rewrite Ht4 in Ht5. rewrite Hc4 in Hc5 |- *.
  pose proof (store_file_at_path_outcome H self a
    (os_path_join (remote_path self)
       [strftime_Ymd (local (clock H (2 + clock_reads s)));
        "archive.tar.gz"]) s5) as Hs.
  destruct (store_file_at_path H self a _ s5) as [k1 s6|e s6].
  2: { destruct Hs as (Ht6 & _). rewrite Ht5 in Ht6.
       exists a, i, st, (Data ""), (Data "").
       eexists. simpl. split; [exact Ht6|].
       repeat split; [by eexists|done|intros; simpl; lia]. }
  destruct Hs as (-> & _ & c1 & _ & _ & Ht6 & Hc6 & _).
  rewrite Ht5, Hc5, <- app_assoc in Ht6. rewrite Hc5 in Hc6. simpl in Ht6.
  destruct (generate_url_returns H
    (os_path_join (remote_path self)
       [strftime_Ymd (local (clock H (2 + clock_reads s)));
        "archive.tar.gz"]) (24 * 60 * 60) s6)
    as (s7 & -> & Ht7 & Hc7 & _).
  rewrite Ht6, <- app_assoc in Ht7. rewrite Hc6 in Hc7. simpl in Ht7.
  destruct (log_returns INFO ("Archive stored: " +:+ sign_url H
    (os_path_join (remote_path self)
       [strftime_Ymd (local (clock H (2 + clock_reads s)));
        "archive.tar.gz"]) (24 * 60 * 60)) s7)
    as (s8 & -> & Ht8 & Hc8 & _).
  rewrite Ht7 in Ht8. rewrite Hc7 in Hc8.
  destruct (get_prefix_returns H self ["index.tsv.txt"] s8)
    as (s9 & -> & Ht9 & Hc9 & _).
  rewrite Ht8 in Ht9. rewrite Hc8 in Hc9 |- *.
  pose proof (store_file_at_path_outcome H self i
    (os_path_join (remote_path self)
       [strftime_Ymd (local (clock H (4 + clock_reads s)));
        "index.tsv.txt"]) s9) as Hs.
  destruct (store_file_at_path H self i _ s9) as [k2 s10|e s10].
  2: { destruct Hs as (Ht10 & _). rewrite Ht9 in Ht10.
       exists a, i, st, c1, (Data "").
       eexists. simpl. split; [exact Ht10|].
       repeat split; [by eexists|done|intros; simpl; lia]. }
  destruct Hs as (-> & _ & c2 & _ & _ & Ht10 & Hc10 & _).
  rewrite Ht9, Hc9, <- app_assoc in Ht10. rewrite Hc9 in Hc10. simpl in Ht10.
  destruct (generate_url_returns H
    (os_path_join (remote_path self)
       [strftime_Ymd (local (clock H (4 + clock_reads s)));
        "index.tsv.txt"]) (24 * 60 * 60) s10)
    as (s11 & -> & Ht11 & Hc11 & _).
  rewrite Ht10, <- app_assoc in Ht11. simpl in Ht11.
  destruct (log_returns INFO ("Index stored: " +:+ sign_url H
    (os_path_join (remote_path self)
       [strftime_Ymd (local (clock H (4 + clock_reads s)));
        "index.tsv.txt"]) (24 * 60 * 60)) s11)
    as (s12 & -> & Ht12 & _).
  rewrite Ht11 in Ht12.
  destruct (log_returns INFO "Files archived" s12) as (s13 & -> & Ht13 & _).
  rewrite Ht12 in Ht13.
  exists a, i, st, c1, c2. eexists. simpl. split; [exact Ht13|].
  repeat split; try done.
Qed.

Lemma put_keys_app (t1 t2 : list Event) :
  put_keys (t1 ++ t2) = put_keys t1 ++ put_keys t2.
Proof. apply omap_app. Qed.

Lemma put_keys_run_events H self s a i st c1 c2 :
  put_keys (run_events H self s a i st c1 c2)
  = [ os_path_join (remote_path self)
        [strftime_Ymd (local (clock H (clock_reads s)))];
      os_path_join (remote_path self)
        [strftime_Ymd (local (clock H (2 + clock_reads s)));
         "archive.tar.gz"];
      os_path_join (remote_path self)
        [strftime_Ymd (local (clock H (4 + clock_reads s)));
         "index.tsv.txt"] ].
Proof. reflexivity. Qed.

(** The keys a returning run wrote. *)
Lemma archive_files_keys H self s s' :
  archive_files H self s = Returned tt s' →
  put_keys (trace s') = put_keys (trace s) ++
    [ os_path_join (remote_path self)
        [strftime_Ymd (local (clock H (clock_reads s)))];
      os_path_join (remote_path self)
        [strftime_Ymd (local (clock H (2 + clock_reads s)));
         "archive.tar.gz"];
      os_path_join (remote_path self)
        [strftime_Ymd (local (clock H (4 + clock_reads s)));
         "index.tsv.txt"] ].
Proof.
  intros Hrun.
  destruct (archive_files_run H self s)
    as (a & i & st & c1 & c2 & l & Ht & _ & Hfull & _).
  rewrite Hrun in Ht. simpl in Ht.
  rewrite Ht, put_keys_app, (Hfull _ Hrun). by rewrite put_keys_run_events.
Qed.

(** ** The properties of the specification *)

(** C1, as stated, fails: on 2024-03-05 with prefix [desktop] the key of
    the directory marker is not ['desktop/2024-03-05/']. *)
Lemma C1_directory_key_without_slash :
  put_keys (trace (final_state
    (archive_files host_2024_03_05 manager_desktop
       (initial_state desktop_files))))
  ≠ [ "desktop/2024-03-05/";
      "desktop/2024-03-05/archive.tar.gz";
      "desktop/2024-03-05/index.tsv.txt" ].
Proof. vm_compute. intros [=]. Qed.

(** C1, amended: for a run with bucket key prefix [desktop] on a host whose
    clock shows 2024-03-05, the three keys written are
    ['desktop/2024-03-05'] (no trailing slash),
    ['desktop/2024-03-05/archive.tar.gz'] and
    ['desktop/2024-03-05/index.tsv.txt'], in this order. *)
Theorem C1_keys_on_2024_03_05 H self s s' :
  remote_path self = "desktop" →
  (∀ n, local (clock H n) = {| year := 2024; month := 3; day := 5 |}) →
  archive_files H self s = Returned tt s' →
  put_keys (trace s') = put_keys (trace s) ++
    [ "desktop/2024-03-05";
      "desktop/2024-03-05/archive.tar.gz";
      "desktop/2024-03-05/index.tsv.txt" ].
Proof.
  intros Hprefix Hdate Hrun.
  rewrite (archive_files_keys _ _ _ _ Hrun), Hprefix, !Hdate.
  reflexivity.
Qed.

Lemma C1_keys_on_2024_03_05_witness :
  put_keys (trace (final_state
    (archive_files host_2024_03_05 manager_desktop
       (initial_state desktop_files))))
  = [ "desktop/2024-03-05";
      "desktop/2024-03-05/archive.tar.gz";
      "desktop/2024-03-05/index.tsv.txt" ].
Proof.
  apply (C1_keys_on_2024_03_05 host_2024_03_05 manager_desktop
           (initial_state desktop_files)).
  - reflexivity.
  - intros n. reflexivity.
  - vm_compute. reflexivity.
Defined.

(** C2, as stated, fails: when midnight passes between the directory
    marker and the uploads, the three keys of the run do not share one date
    partition. *)
Lemma C2_run_across_midnight :
  ¬ share_date_partition "desktop"
      (put_keys (trace (final_state
         (archive_files host_midnight manager_desktop
            (initial_state desktop_files))))).
Proof.
  assert (put_keys (trace (final_state
            (archive_files host_midnight manager_desktop
               (initial_state desktop_files))))
          = [ "desktop/2024-03-05";
              "desktop/2024-03-06/archive.tar.gz";
              "desktop/2024-03-06/index.tsv.txt" ]) as ->
    by (vm_compute; reflexivity).
  intros [d [= Hdir Harchive _]].
  destruct (startswith d "/") eqn:Hslash.
  - subst d. vm_compute in Hslash. discriminate.
  - change "desktop/2024-03-05" with ("desktop" +:+ "/" +:+ "2024-03-05")
      in Hdir.
    apply (inj (String.append "desktop")), (inj (String.append "/")) in Hdir.
    subst d. vm_compute in Harchive. discriminate.
Qed.

(** C2, amended: [get_prefix] reads the clock anew for each of the three
    keys, so each key carries the date of its own reading; the three keys
    share one date partition in every run in which these three readings
    fall on the same date. *)
Theorem C2_keys_share_date_of_same_day H self s s' :
  archive_files H self s = Returned tt s' →
  strftime_Ymd (local (clock H (2 + clock_reads s)))
    = strftime_Ymd (local (clock H (clock_reads s))) →
  strftime_Ymd (local (clock H (4 + clock_reads s)))
    = strftime_Ymd (local (clock H (clock_reads s))) →
  ∃ keys,
    put_keys (trace s') = put_keys (trace s) ++ keys
    ∧ share_date_partition (remote_path self) keys.
Proof.
  intros Hrun Harchive Hindex. eexists. split.
  - apply (archive_files_keys _ _ _ _ Hrun).
  - exists (strftime_Ymd (local (clock H (clock_reads s)))).
    by rewrite Harchive, Hindex.
Qed.

Lemma C2_keys_share_date_of_same_day_witness :
  ∃ keys,
    put_keys (trace (final_state
      (archive_files host_2024_03_05 manager_desktop
         (initial_state desktop_files)))) = keys
    ∧ share_date_partition "desktop" keys.
Proof.
  destruct (C2_keys_share_date_of_same_day host_2024_03_05 manager_desktop
              (initial_state desktop_files)
              (final_state (archive_files host_2024_03_05 manager_desktop
                 (initial_state desktop_files))))
    as (keys & Hkeys & Hshare).
  - vm_compute. reflexivity.
  - reflexivity.
  - reflexivity.
  - exists keys. split; [exact Hkeys | exact Hshare].
Defined.

(** ** The manifest *)

(** The manifest of the example archive of the specification. *)
Lemma example_archive_manifest :
  manifest [ {| tarfile.name := "a.txt"; tarfile.size := 10 |};
             {| tarfile.name := "sub/b.txt"; tarfile.size := 20 |} ]
  = "a.txt" +:+ TAB +:+ "10" +:+ NL +:+ "sub/b.txt" +:+ TAB +:+ "20" +:+ NL.
Proof. vm_compute. reflexivity. Qed.

(** C3, as stated, fails, in two ways.  A valid archive with a member whose
    name is not UTF-8 (here the bytes FF 2E 74 78 74) gets no manifest:
    [create_index_from_archive] raises UnicodeEncodeError at the line of that
    member and leaves the index file empty.  And a member whose name has a
    newline in it takes two lines of the manifest, so that the lines are not
    one per member: here one member, two lines. *)
Lemma C3_member_name_breaks_manifest :
  (∃ s',
     create_index_from_archive host_2024_03_05 manager_desktop
       "/tmp/archive.tar.gz" (state_with_members archive_not_utf8)
     = Raised UnicodeEncodeError s'
     ∧ fs s' !! "/tmp/tmp0" = Some (Regular (Data "")))
  ∧ (∃ s',
       create_index_from_archive host_2024_03_05 manager_desktop
         "/tmp/archive.tar.gz" (state_with_members archive_newline_name)
       = Returned "/tmp/tmp0" s'
       ∧ fs s' !! "/tmp/tmp0"
         = Some (Regular (Data ("a" +:+ NL +:+ "b" +:+ TAB +:+ "1" +:+ NL)))
       ∧ lines ("a" +:+ NL +:+ "b" +:+ TAB +:+ "1" +:+ NL)
         = ["a"; "b" +:+ TAB +:+ "1"; ""]
       ∧ length archive_newline_name = 1).
Proof.
  split.
  - eexists. split; [vm_compute; reflexivity|]. vm_compute. reflexivity.
  - eexists. split; [vm_compute; reflexivity|].
    split; [vm_compute; reflexivity|]. split; reflexivity.
Qed.

(** C3, amended: for a file that holds a tar archive whose member names are
    valid UTF-8 and have no newline in them, [create_index_from_archive]
    returns a new file whose content is exactly one line per member, in the
    order of the archive, each line the member's name, a tab, its size in
    decimal and a newline; the archive with members a.txt (10 bytes) and
    sub/b.txt (20 bytes) gives "a.txt\t10\nsub/b.txt\t20\n".  The archive is
    left as it was. *)
Theorem C3_manifest_of_archive H self s archive_path members index_path pos :
  fs s !! archive_path = Some (Regular (TarGz members)) →
  fresh_name H TMP_MAX (names_drawn s) (fs s) = Some (index_path, pos) →
  encodable_names members →
  Forall (λ member, newline_free (tarfile.name member)) members →
  (∃ s',
     create_index_from_archive H self archive_path s = Returned index_path s'
     ∧ fs s' !! index_path = Some (Regular (Data (manifest members)))
     ∧ fs s' !! archive_path = Some (Regular (TarGz members)))
  ∧ lines (manifest members) = (manifest_fields <$> members) ++ [""]
  ∧ manifest [ {| tarfile.name := "a.txt"; tarfile.size := 10 |};
               {| tarfile.name := "sub/b.txt"; tarfile.size := 20 |} ]
    = "a.txt" +:+ TAB +:+ "10" +:+ NL +:+ "sub/b.txt" +:+ TAB +:+ "20" +:+ NL.
Proof.
  intros Harchive Hfresh Hnames Hlines. split; [|split].
  - destruct (create_index_succeeds H self archive_path s members index_path
                pos Harchive Hfresh Hnames) as (s' & Hrun & Hfs & _).
    exists s'. split; [exact Hrun|]. rewrite Hfs. split.
    + apply lookup_insert_eq.
    + rewrite lookup_insert_ne; [done|].
      apply fresh_name_free in Hfresh. congruence.
  - by apply lines_manifest.
  - apply example_archive_manifest.
Qed.

Lemma C3_manifest_of_archive_witness :
  ∃ s',
    create_index_from_archive host_2024_03_05 manager_desktop
      "/tmp/archive.tar.gz" state_with_archive = Returned "/tmp/tmp0" s'
    ∧ fs s' !! "/tmp/tmp0"
      = Some (Regular (Data ("a.txt" +:+ TAB +:+ "10" +:+ NL +:+
                             "sub/b.txt" +:+ TAB +:+ "20" +:+ NL)))
    ∧ lines ("a.txt" +:+ TAB +:+ "10" +:+ NL +:+
             "sub/b.txt" +:+ TAB +:+ "20" +:+ NL)
      = ["a.txt" +:+ TAB +:+ "10"; "sub/b.txt" +:+ TAB +:+ "20"; ""].
Proof.
  destruct (C3_manifest_of_archive host_2024_03_05 manager_desktop
              state_with_archive "/tmp/archive.tar.gz" example_archive
              "/tmp/tmp0" 1)
    as ((s' & Hrun & Hindex & _) & Hlines & Hexample).
  - reflexivity.
  - vm_compute. reflexivity.
  - unfold encodable_names, example_archive. repeat constructor.
  - unfold example_archive.
    repeat constructor; unfold newline_free; apply (bool_decide_unpack _);
      vm_compute; exact I.
  - exists s'. split; [exact Hrun|]. unfold example_archive in *.
    rewrite Hexample in Hindex, Hlines. split; [exact Hindex|exact Hlines].
Defined.

(** C5: for every source directory, [create_archive] returns the path of
    the temporary file it allocated, whatever the packing command did: for
    every exit status and every effect of the command on the file system
    the function returns normally, with the same path. *)
Theorem C5_create_archive_ignores_status H self path s tempfilename pos
    entries files status :
  fresh_name H TMP_MAX (names_drawn s) (fs s) = Some (tempfilename, pos) →
  fs s !! realpath H path = Some (Directory entries) →
  sh H (tar_command tempfilename) (realpath H path)
    (<[tempfilename := Regular (Data "")]> (fs s)) = (files, status) →
  ∃ s',
    create_archive H self path s = Returned tempfilename s'
    ∧ fs s' = files
    ∧ trace s' = trace s ++
        [Mkstemp tempfilename;
         Popen (tar_command tempfilename) (realpath H path) status].
Proof.
  intros Hfresh Hdir Hsh.
  destruct (create_archive_succeeds H self path s tempfilename pos entries
              Hfresh Hdir) as (s' & Hrun).
  exists s'. split; [exact Hrun|].
  apply create_archive_returned in Hrun
    as (_ & _ & _ & _ & Hfs & Htrace & _).
  rewrite Hsh in Hfs, Htrace. done.
Qed.

Lemma C5_create_archive_ignores_status_witness :
  ∃ s',
    create_archive host_without_tar manager_desktop "/home/user/Desktop/"
      (initial_state desktop_files) = Returned "/tmp/tmp0" s'
    ∧ fs s' = <["/tmp/tmp0" := Regular (Data "")]> desktop_files
    ∧ trace s' =
        [Mkstemp "/tmp/tmp0";
         Popen "tar -zcvf /tmp/tmp0 *" "/home/user/Desktop/" 127].
Proof.
  apply (C5_create_archive_ignores_status host_without_tar manager_desktop
           "/home/user/Desktop/" (initial_state desktop_files) "/tmp/tmp0" 1
           desktop_tree).
  - vm_compute. reflexivity.
  - reflexivity.
  - reflexivity.
Defined.

(** C7: a call of [store_file_at_path] on an existing file, with the back
    end answering, stores at the given key an object whose body is the
    whole content of the file, whose content type is
    application/octet-stream, whose metadata holds as mtime the Unix time
    read from the clock during the call, and whose access policy is private;
    it returns the key. *)
Theorem C7_store_file_at_path H self local remote s c :
  fs s !! local = Some (Regular c) →
  s3_up H (requests s) = true →
  ∃ s' obj,
    store_file_at_path H self local remote s = Returned remote s'
    ∧ objects s' !! remote = Some obj
    ∧ body obj = c
    ∧ content_type obj = Some "application/octet-stream"
    ∧ metadata obj
      = {[ "mtime" := pretty (epoch (clock H (clock_reads s))) ]}
    ∧ policy obj = "private".
Proof.
  intros Hfile Hup.
  unfold store_file_at_path, int_time_time, read_clock,
    set_contents_from_filename, read_file, s3_request, bind, ret, modify,
    emit, log. simpl. rewrite Hfile. simpl. rewrite Hup. simpl.
  eexists _, _. split; [reflexivity|]. simpl.
  rewrite lookup_insert_eq. split; [reflexivity|]. by repeat split.
Qed.

Lemma C7_store_file_at_path_witness :
  ∃ s' obj,
    store_file_at_path host_2024_03_05 manager_desktop "/tmp/archive.tar.gz"
      "desktop/2024-03-05/archive.tar.gz" state_with_archive
      = Returned "desktop/2024-03-05/archive.tar.gz" s'
    ∧ objects s' !! "desktop/2024-03-05/archive.tar.gz" = Some obj
    ∧ body obj = TarGz example_archive
    ∧ content_type obj = Some "application/octet-stream"
    ∧ metadata obj = {[ "mtime" := "1709640000" ]}
    ∧ policy obj = "private".
Proof.
  apply (C7_store_file_at_path host_2024_03_05 manager_desktop
           "/tmp/archive.tar.gz" "desktop/2024-03-05/archive.tar.gz"
           state_with_archive (TarGz example_archive)).
  - reflexivity.
  - reflexivity.
Defined.

(** C8: a call of [create_directory], with the back end answering, stores
    at exactly the given prefix an object of zero bytes, with content type
    application/x-directory and with metadata gid 20, uid 501, mode 16877 and
    as mtime the Unix time read from the clock during the call. *)
Theorem C8_create_directory H self prefix s :
  s3_up H (requests s) = true →
  ∃ s' obj,
    create_directory H self prefix s = Returned tt s'
    ∧ objects s' = <[prefix := obj]> (objects s)
    ∧ body obj = Data ""
    ∧ content_type obj = Some "application/x-directory"
    ∧ metadata obj
      = {[ "gid" := "20"; "uid" := "501"; "mode" := "16877";
           "mtime" := pretty (epoch (clock H (clock_reads s))) ]}.
Proof.
  intros Hup.
  unfold create_directory, int_time_time, read_clock, set_contents_from_string,
    s3_request, bind, ret, modify, emit, log. simpl. rewrite Hup. simpl.
  eexists _, _. split; [reflexivity|]. simpl.
  split; [reflexivity|]. by repeat split.
Qed.

Lemma C8_create_directory_witness :
  ∃ s' obj,
    create_directory host_2024_03_05 manager_desktop "desktop/2024-03-05"
      (initial_state desktop_files) = Returned tt s'
    ∧ objects s' = <["desktop/2024-03-05" := obj]> ∅
    ∧ body obj = Data ""
    ∧ content_type obj = Some "application/x-directory"
    ∧ metadata obj
      = {[ "gid" := "20"; "uid" := "501"; "mode" := "16877";
           "mtime" := "1709640000" ]}.
Proof.
  apply (C8_create_directory host_2024_03_05 manager_desktop
           "desktop/2024-03-05" (initial_state desktop_files)).
  reflexivity.
Defined.

(** C4 does not hold of the code.  When the credential file is absent the
    handler of the script binds [access_default] and [key_default], not
    [secret_default]; reading [secret_default] for the parser then raises
    NameError, before any connection to the storage back end is attempted,
    whatever the command line gives. *)
Theorem C4_missing_credentials_raise_NameError H argv s :
  fs s !! (home H +:+ "/.passwd-s3fs") = None →
  globals s !! "secret_default" = None →
  ∃ s',
    main H argv s = Raised (NameError "secret_default") s'
    ∧ trace s' = trace s
    ∧ requests s' = requests s
    ∧ globals s' !! "access_default" = Some None
    ∧ globals s' !! "key_default" = Some None
    ∧ globals s' !! "secret_default" = None.
Proof.
  intros Hfile Hunbound.
  unfold main, try_except, get_access_key_and_secret_from_s3fs, read_text,
    read_file, expanduser, bind, store_name, load_name, modify. simpl.
  rewrite Hfile. simpl.
  rewrite (lookup_insert_ne (M:=gmap string)) by done.
  rewrite (lookup_insert_eq (M:=gmap string)). simpl.
  rewrite !(lookup_insert_ne (M:=gmap string)) by done. rewrite Hunbound.
  eexists. split; [reflexivity|]. simpl.
  rewrite !(lookup_insert_ne (M:=gmap string) _ "key_default") by done.
  rewrite !(lookup_insert_eq (M:=gmap string)).
  rewrite !(lookup_insert_ne (M:=gmap string)) by done. done.
Qed.

Lemma C4_missing_credentials_raise_NameError_witness :
  ∃ s',
    main host_2024_03_05 command_line_with_keys (initial_state desktop_files)
    = Raised (NameError "secret_default") s'
    ∧ trace s' = []
    ∧ requests s' = 0
    ∧ globals s' !! "access_default" = Some None
    ∧ globals s' !! "key_default" = Some None
    ∧ globals s' !! "secret_default" = None.
Proof.
  apply (C4_missing_credentials_raise_NameError host_2024_03_05
           command_line_with_keys (initial_state desktop_files)).
  - reflexivity.
  - reflexivity.
Defined.

(** With the credential file in place the same script reaches the back end
    and completes the run. *)
Lemma main_with_credential_file :
  ∃ s',
    main host_2024_03_05 command_line_bare
      (initial_state files_with_credentials) = Returned tt s'
    ∧ head (trace s')
      = Some (GetBucket "backups" (Some "AKIAEXAMPLE") (Some "s3cr3t"))
    ∧ put_keys (trace s')
      = [ "desktop/2024-03-05";
          "desktop/2024-03-05/archive.tar.gz";
          "desktop/2024-03-05/index.tsv.txt" ].
Proof. eexists. split; [vm_compute; reflexivity|]. split; reflexivity. Qed.

(** ** The packing command *)




Lemma paths_of_self (t : Tree) path : path ∈ paths_of path t.
Proof. destruct t; cbn [paths_of]; apply elem_of_cons; by left. Qed.







(** ** The example shell *)










(** The archive of the example directory: the hidden file below [sub] is
    packed, the hidden file of the directory itself is not. *)
Lemma example_archived_names :
  archived_names
    (create_archive host_2024_03_05 manager_desktop "/home/user/Desktop/"
       (initial_state desktop_files))
  = ["a.txt"; "sub"; "sub/b.txt"; "sub/.cache"].
Proof. vm_compute. reflexivity. Qed.

(** * Further properties of the code *)

(** ** The bucket and the trace *)

Lemma accounted_refl s s' :
  trace s' = trace s → objects s' = objects s → accounted s s'.
Proof. intros Ht Ho. exists []. by rewrite app_nil_r. Qed.

Lemma accounted_trans s1 s2 s3 :
  accounted s1 s2 → accounted s2 s3 → accounted s1 s3.
Proof.
  intros (l1 & Ht1 & Ho1) (l2 & Ht2 & Ho2). exists (l1 ++ l2).
  rewrite Ht2, Ht1, Ho2, Ho1, app_assoc. split; [done|].
  unfold apply_puts. by rewrite foldl_app.
Qed.

Lemma accounts_bind {A B} (m : M A) (k : A → M B) :
  accounts m → (∀ a, accounts (k a)) → accounts (bind m k).
Proof.
  intros Hm Hk s. unfold bind. specialize (Hm s).
  destruct (m s) as [a s1|e s1]; [|done].
  exact (accounted_trans _ _ _ Hm (Hk a s1)).
Qed.

Lemma accounts_try_except {A} (m h : M A) handled :
  accounts m → accounts h → accounts (try_except m handled h).
Proof.
  intros Hm Hh s. unfold try_except. specialize (Hm s).
  destruct (m s) as [a s1|e s1]; [done|].
  destruct (handled e); [|done].
  exact (accounted_trans _ _ _ Hm (Hh s1)).
Qed.

Lemma accounts_ret {A} (a : A) : accounts (ret a).
Proof. intros s. by apply accounted_refl. Qed.

Lemma accounts_raise {A} e : accounts (@raise A e).
Proof. intros s. by apply accounted_refl. Qed.

Lemma accounts_log lvl msg : accounts (log lvl msg).
Proof. intros s. by apply accounted_refl. Qed.

Lemma accounts_emit e : put_key e = None → accounts (emit e).
Proof.
  intros He s. exists [e]. split; [done|]. by destruct e.
Qed.

Lemma accounts_read_clock H : accounts (read_clock H).
Proof. intros s. by apply accounted_refl. Qed.

Lemma accounts_mkstemp H : accounts (mkstemp H).
Proof.
  intros s. unfold mkstemp.
  destruct (fresh_name H TMP_MAX (names_drawn s) (fs s)) as [[t pos]|].
  - by exists [Mkstemp t].
  - by apply accounted_refl.
Qed.

Lemma accounts_subprocess_Popen H cmd cwd : accounts (subprocess_Popen H cmd cwd).
Proof.
  intros s. unfold subprocess_Popen.
  destruct (fs s !! cwd) as [[c|entries]|]; try by apply accounted_refl.
  destruct (sh H cmd cwd (fs s)) as [files status].
  by exists [Popen cmd cwd status].
Qed.

Lemma accounts_tarfile_open H archive_path :
  accounts (tarfile_open H archive_path).
Proof.
  intros s. unfold tarfile_open.
  destruct (fs s !! archive_path) as [[[d|members]|entries]|];
    try by apply accounted_refl.
  - destruct (tar_failure H d); [by apply accounted_refl|].
    by exists [TarOpen archive_path].
  - by exists [TarOpen archive_path].
Qed.

Lemma accounts_getmembers H archive : accounts (getmembers H archive).
Proof.
  intros s. destruct archive as [d|members]; unfold getmembers.
  - destruct (tar_failure H d); by apply accounted_refl.
  - by apply accounted_refl.
Qed.

Lemma accounts_open_w path : accounts (open_w path).
Proof.
  intros s. unfold open_w.
  destruct (fs s !! path) as [[c|entries]|]; by apply accounted_refl.
Qed.

Lemma accounts_file_write out data : accounts (file_write out data).
Proof.
  intros s. unfold file_write.
  destruct (utf8_valid data); [|by apply accounted_refl].
  destruct (fs s !! out) as [[[d|members]|entries]|]; by apply accounted_refl.
Qed.

Lemma accounts_with_open_w {A} path (body : string → M A) :
  (∀ out, accounts (body out)) → accounts (with_open_w path body).
Proof.
  intros Hbody. unfold with_open_w.
  apply accounts_bind; [apply accounts_open_w|]. intros out s.
  specialize (Hbody out s).
  destruct (body out s) as [a s1|e s1]; simpl in *;
    (eapply accounted_trans; [exact Hbody|]); by exists [Written out].
Qed.

Lemma accounts_read_file filename : accounts (read_file filename).
Proof.
  intros s. unfold read_file.
  destruct (fs s !! filename) as [[c|entries]|]; by apply accounted_refl.
Qed.

Lemma accounts_read_text filename : accounts (read_text filename).
Proof.
  unfold read_text. apply accounts_bind; [apply accounts_read_file|].
  intros [contents|members]; [|apply accounts_raise].
  destruct (utf8_valid contents); [apply accounts_ret|apply accounts_raise].
Qed.

Lemma accounts_logging_basicConfig loglevel :
  accounts (logging_basicConfig loglevel).
Proof.
  unfold logging_basicConfig.
  case_bool_decide; [apply accounts_ret|apply accounts_raise].
Qed.

Lemma accounts_load_name var : accounts (load_name var).
Proof.
  intros s. unfold load_name.
  destruct (globals s !! var); by apply accounted_refl.
Qed.

Lemma accounts_store_name var v : accounts (store_name var v).
Proof. intros s. by apply accounted_refl. Qed.

Lemma accounts_write_members out members : accounts (write_members out members).
Proof.
  induction members as [|member rest IH]; [apply accounts_ret|].
  apply accounts_bind; [apply accounts_file_write|done].
Qed.

Lemma accounts_set_contents_from_string H key data hdrs pol :
  accounts (set_contents_from_string H key data hdrs pol).
Proof.
  intros s. unfold set_contents_from_string, s3_request, bind, modify, emit.
  destruct (s3_up H (requests s)); [|by apply accounted_refl].
  by eexists [PutString key _].
Qed.

Lemma accounts_set_contents_from_filename H key filename hdrs pol :
  accounts (set_contents_from_filename H key filename hdrs pol).
Proof.
  intros s.
  unfold set_contents_from_filename, read_file, s3_request, bind, modify, emit.
  destruct (fs s !! filename) as [[c|entries]|]; try by apply accounted_refl.
  destruct (s3_up H (requests s)); [|by apply accounted_refl].
  by eexists [PutFile filename key _].
Qed.

Create HintDb accounts discriminated.
#[local] Hint Resolve accounts_ret accounts_raise accounts_log
  accounts_read_clock accounts_mkstemp accounts_subprocess_Popen
  accounts_tarfile_open accounts_open_w accounts_file_write
  accounts_read_file accounts_load_name accounts_store_name
  accounts_write_members accounts_set_contents_from_string
  accounts_set_contents_from_filename accounts_getmembers
  accounts_read_text accounts_logging_basicConfig : accounts.

Ltac accounts_steps :=
  repeat first
    [ solve [auto with accounts]
    | apply accounts_emit; reflexivity
    | apply accounts_try_except
    | apply accounts_with_open_w; intros ?
    | apply accounts_bind; [|intros ?]
    | match goal with |- accounts (match ?x with _ => _ end) => destruct x end
    | match goal with |- accounts (if ?x then _ else _) => destruct x end ].

Lemma accounts_archive_files H self : accounts (archive_files H self).
Proof.
  unfold archive_files, create_archive, create_index_from_archive, get_prefix,
    create_directory, store_file_at_path, generate_url, datetime_now,
    int_time_time, proc_wait.
  accounts_steps.
Qed.

Lemma accounts_s3_request H : accounts (s3_request H).
Proof.
  intros s. unfold s3_request.
  destruct (s3_up H (requests s)); by apply accounted_refl.
Qed.

Lemma accounts_main H argv : accounts (main H argv).
Proof.
  pose proof (accounts_archive_files H) as Hrun.
  pose proof (accounts_s3_request H) as Hrequest.
  unfold main, get_access_key_and_secret_from_s3fs, init.
  accounts_steps.
Qed.

Lemma apply_puts_lookup_other l : ∀ m key,
  key ∉ put_keys l → apply_puts l m !! key = m !! key.
Proof.
  induction l as [|e l IH]; intros m key Hkey; [done|].
  unfold apply_puts in *. simpl. rewrite IH.
  - destruct e; simpl; try done;
      apply lookup_insert_ne; intros ->; apply Hkey;
      unfold put_keys; simpl; by left.
  - intros Hin. apply Hkey. unfold put_keys in *. simpl.
    destruct (put_key e); [by right|done].
Qed.

Lemma apply_puts_dom l : ∀ m, dom m ⊆ dom (apply_puts l m).
Proof.
  induction l as [|e l IH]; intros m; [done|].
  unfold apply_puts in *. simpl. etrans; [|apply IH].
  destruct e; simpl; try done; rewrite dom_insert_L; set_solver.
Qed.

(** X1: whatever a run of [archive_files] does, and whether it returns or
    raises, the bucket it leaves is the bucket it found with the PUTs of the
    run applied in order: nothing is rolled back, no object is deleted, and
    an object under a key the run did not write is left as it was. *)
Theorem archive_files_changes_bucket_by_puts_only H self s :
  ∃ l,
    trace (final_state (archive_files H self s)) = trace s ++ l
    ∧ objects (final_state (archive_files H self s))
      = apply_puts l (objects s)
    ∧ (∀ key, key ∉ put_keys l →
         objects (final_state (archive_files H self s)) !! key
         = objects s !! key)
    ∧ dom (objects s) ⊆ dom (objects (final_state (archive_files H self s))).
Proof.
  destruct (accounts_archive_files H self s) as (l & Ht & Ho).
  exists l. rewrite Ho. repeat split; [done|..].
  - intros key Hkey. by apply apply_puts_lookup_other.
  - apply apply_puts_dom.
Qed.

(** X2: the same holds of the whole script, from the loading of the
    credentials on: every outcome of [main], the uncaught exceptions
    included, leaves each object that was in the bucket in the bucket, and
    changes only the keys its PUTs name. *)
Theorem main_changes_bucket_by_puts_only H argv s :
  ∃ l,
    trace (final_state (main H argv s)) = trace s ++ l
    ∧ (∀ key, key ∉ put_keys l →
         objects (final_state (main H argv s)) !! key = objects s !! key)
    ∧ dom (objects s) ⊆ dom (objects (final_state (main H argv s))).
Proof.
  destruct (accounts_main H argv s) as (l & Ht & Ho).
  exists l. rewrite Ho. repeat split; [done|..].
  - intros key Hkey. by apply apply_puts_lookup_other.
  - apply apply_puts_dom.
Qed.

(** ** The local steps *)

Lemma offline_bind {A B} (m : M A) (k : A → M B) :
  offline m → (∀ a, offline (k a)) → offline (bind m k).
Proof.
  intros Hm Hk s. unfold bind. specialize (Hm s).
  destruct (m s) as [a s1|e s1]; [|done].
  destruct (Hk a s1) as (-> & -> & ->). exact Hm.
Qed.

Lemma offline_ret {A} (a : A) : offline (ret a).
Proof. by intros s. Qed.

Lemma offline_log lvl msg : offline (log lvl msg).
Proof. by intros s. Qed.

Lemma offline_emit e : offline (emit e).
Proof. by intros s. Qed.

Lemma offline_mkstemp H : offline (mkstemp H).
Proof.
  intros s. unfold mkstemp.
  by destruct (fresh_name H TMP_MAX (names_drawn s) (fs s)) as [[t pos]|].
Qed.

Lemma offline_subprocess_Popen H cmd cwd : offline (subprocess_Popen H cmd cwd).
Proof.
  intros s. unfold subprocess_Popen.
  destruct (fs s !! cwd) as [[c|entries]|]; try done.
  by destruct (sh H cmd cwd (fs s)) as [files status].
Qed.

Lemma offline_raise {A} e : offline (@raise A e).
Proof. by intros s. Qed.

Lemma offline_tarfile_open H archive_path :
  offline (tarfile_open H archive_path).
Proof.
  intros s. unfold tarfile_open.
  destruct (fs s !! archive_path) as [[[d|members]|entries]|]; try done.
  by destruct (tar_failure H d).
Qed.

Lemma offline_getmembers H archive : offline (getmembers H archive).
Proof.
  destruct archive as [d|members]; unfold getmembers;
    [|apply offline_ret].
  destruct (tar_failure H d); apply offline_raise.
Qed.

Lemma offline_open_w path : offline (open_w path).
Proof.
  intros s. unfold open_w. by destruct (fs s !! path) as [[c|entries]|].
Qed.

Lemma offline_file_write out data : offline (file_write out data).
Proof.
  intros s. unfold file_write. destruct (utf8_valid data); [|done].
  by destruct (fs s !! out) as [[[d|members]|entries]|].
Qed.

Lemma offline_write_members out members : offline (write_members out members).
Proof.
  induction members as [|member rest IH]; [apply offline_ret|].
  apply offline_bind; [apply offline_file_write|done].
Qed.

Lemma offline_with_open_w {A} path (body : string → M A) :
  (∀ out, offline (body out)) → offline (with_open_w path body).
Proof.
  intros Hbody. unfold with_open_w.
  apply offline_bind; [apply offline_open_w|]. intros out s.
  specialize (Hbody out s). by destruct (body out s) as [a s1|e s1].
Qed.

Lemma offline_create_archive H self path :
  offline (create_archive H self path).
Proof.
  unfold create_archive, proc_wait.
  repeat first
    [ apply offline_log | apply offline_ret | apply offline_mkstemp
    | apply offline_subprocess_Popen
    | apply offline_bind; [|intros ?] ].
Qed.

Lemma offline_create_index H self archive_path :
  offline (create_index_from_archive H self archive_path).
Proof.
  unfold create_index_from_archive.
  repeat first
    [ apply offline_log | apply offline_ret | apply offline_mkstemp
    | apply offline_tarfile_open | apply offline_getmembers
    | apply offline_write_members
    | apply offline_with_open_w; intros ?
    | apply offline_bind; [|intros ?] ].
Qed.

(** X3: [create_archive] and [create_index_from_archive] work on the local
    machine only: whatever their outcome, they issue no storage request,
    leave the bucket unchanged and never read the clock. *)
Theorem archiving_and_indexing_stay_offline H self :
  (∀ path, offline (create_archive H self path))
  ∧ (∀ archive_path, offline (create_index_from_archive H self archive_path)).
Proof.
  split; [apply offline_create_archive|apply offline_create_index].
Qed.
(** ** A run that succeeds *)

Lemma metered_bind {A B} (m : M A) (k : A → M B) :
  metered m → (∀ a, metered (k a)) → metered (bind m k).
Proof.
  intros Hm Hk s. unfold bind. destruct (Hm s) as (l1 & Ht1 & Hr1).
  destruct (m s) as [a s1|e s1]; simpl in *.
  - destruct (Hk a s1) as (l2 & Ht2 & Hr2). exists (l1 ++ l2).
    rewrite Ht2, Ht1, app_assoc. split; [done|].
    rewrite put_keys_app, length_app.
    destruct (k a s1); simpl in *; lia.
  - exists l1. by split.
Qed.

(** A computation that leaves the count of operations alone and puts
    nothing. *)
Lemma metered_local {A} (m : M A) :
  (∀ s, requests (final_state (m s)) = requests s
        ∧ ∃ l, trace (final_state (m s)) = trace s ++ l ∧ put_keys l = []) →
  metered m.
Proof.
  intros Hm s. destruct (Hm s) as (Hr & l & Ht & Hl).
  exists l. split; [done|]. rewrite Hl.
  destruct (m s); simpl in *; lia.
Qed.

Lemma metered_create_archive H self path : metered (create_archive H self path).
Proof.
  apply metered_local. intros s.
  split; [apply (offline_create_archive H self path s)|].
  destruct (create_archive H self path s) as [t s'|e s'] eqn:Ha; simpl.
  - apply create_archive_returned in Ha as (_ & _ & _ & _ & _ & Ht & _).
    by eexists.
  - apply create_archive_raised in Ha as [Ht|[t Ht]].
    + exists []. by rewrite app_nil_r.
    + by eexists.
Qed.

Lemma metered_create_index H self archive_path :
  metered (create_index_from_archive H self archive_path).
Proof.
  apply metered_local. intros s.
  split; [apply (offline_create_index H self archive_path s)|].
  destruct (create_index_from_archive H self archive_path s)
    as [t s'|e s'] eqn:Hi; simpl.
  - apply create_index_returned in Hi as [Ht _]. by eexists.
  - apply create_index_raised in Hi as [Ht|[t [Ht|Ht]]].
    + exists []. by rewrite app_nil_r.
    + by eexists.
    + by eexists.
Qed.

Lemma metered_get_prefix H self components :
  metered (get_prefix H self components).
Proof.
  apply metered_local. intros s.
  destruct (get_prefix_returns H self components s)
    as (s' & -> & Ht & _ & Hr & _).
  split; [done|]. exists []. by rewrite app_nil_r.
Qed.

Lemma metered_generate_url H key expires_in :
  metered (generate_url H key expires_in).
Proof.
  apply metered_local. intros s.
  destruct (generate_url_returns H key expires_in s)
    as (s' & -> & Ht & _ & Hr & _).
  split; [done|]. by eexists.
Qed.

Lemma metered_log lvl msg : metered (log lvl msg).
Proof.
  apply metered_local. intros s. split; [done|].
  exists []. by rewrite app_nil_r.
Qed.

Lemma metered_create_directory H self prefix :
  metered (create_directory H self prefix).
Proof.
  intros s. pose proof (create_directory_outcome H self prefix s) as Hd.
  destruct (create_directory H self prefix s) as [[] s'|e s']; simpl.
  - destruct Hd as (_ & _ & Ht & _ & Hr & _). eexists. split; [exact Ht|].
    simpl. lia.
  - destruct Hd as (_ & _ & Ht & _ & Hr & _). exists [].
    rewrite app_nil_r. split; [done|]. simpl. lia.
Qed.

Lemma metered_store_file_at_path H self local remote :
  metered (store_file_at_path H self local remote).
Proof.
  intros s. pose proof (store_file_at_path_outcome H self local remote s) as Hs.
  destruct (store_file_at_path H self local remote s) as [key s'|e s']; simpl.
  - destruct Hs as (_ & _ & c & _ & _ & Ht & _ & Hr & _).
    eexists. split; [exact Ht|]. simpl. lia.
  - destruct Hs as (Ht & _ & _ & Hr). exists [].
    rewrite app_nil_r. split; [done|]. simpl.
    destruct Hr as [(_ & Hr & _)|(_ & _ & Hr)]; lia.
Qed.

(** A run asks each of its three uploads of the storage client once. *)
Lemma metered_archive_files H self : metered (archive_files H self).
Proof.
  unfold archive_files.
  repeat first
    [ apply metered_create_archive | apply metered_create_index
    | apply metered_get_prefix | apply metered_create_directory
    | apply metered_store_file_at_path | apply metered_generate_url
    | apply metered_log
    | apply metered_bind; [|intros ?] ].
Qed.

(** What a run that returned has done. *)
Lemma archive_files_returned H self s s' :
  archive_files H self s = Returned tt s' →
  ∃ archive_path index_path pos pos' entries members,
    fresh_name H TMP_MAX (names_drawn s) (fs s) = Some (archive_path, pos)
    ∧ fs s !! realpath H (local_path self) = Some (Directory entries)
    ∧ (packing H self s archive_path).1 !! archive_path
      = Some (Regular (TarGz members))
    ∧ fresh_name H TMP_MAX pos (packing H self s archive_path).1
      = Some (index_path, pos')
    ∧ fs s' = <[index_path := Regular (Data (manifest members))]>
                (packing H self s archive_path).1
    ∧ trace s' = trace s ++
        run_events H self s archive_path index_path
          (packing H self s archive_path).2
          (TarGz members) (Data (manifest members))
    ∧ clock_reads s' = 6 + clock_reads s.
Proof.
  unfold archive_files, bind.
  destruct (create_archive H self (local_path self) s) as [a' s1|e s1] eqn:Ha;
    [|done].
  destruct (offline_create_archive H self (local_path self) s)
    as (_ & _ & Hc1). rewrite Ha in Hc1. simpl in Hc1.
  pose proof (create_archive_names_drawn _ _ _ _ _ _ Ha) as Hfresh.
  apply create_archive_returned in Ha
    as (_ & entries & _ & Hdir & Hfs1 & Ht1 & _).
  change (sh H (tar_command a') (realpath H (local_path self))
            (<[a':=Regular (Data "")]> (fs s)))
    with (packing H self s a') in Hfs1, Ht1.
  destruct (create_index_from_archive H self a' s1) as [i' s2|e s2] eqn:Hi;
    [|done].
  destruct (offline_create_index H self a' s1) as (_ & _ & Hc2).
  rewrite Hi in Hc2. simpl in Hc2.
  pose proof (create_index_returned _ _ _ _ _ _ Hi) as [Ht2 _].
  apply create_index_returned_archive in Hi
    as (members & pos' & Harchive & Hfresh2 & Hifree & Hfs2).
  destruct (get_prefix_returns H self [] s2)
    as (s3 & -> & Ht3 & Hc3 & _ & Hfs3 & _).
  pose proof (create_directory_outcome H self
    (os_path_join (remote_path self)
       [strftime_Ymd (local (clock H (clock_reads s2)))]) s3) as Hd.
  destruct (create_directory H self _ s3) as [[] s4|e s4]; [|done].
  destruct Hd as (_ & _ & Ht4 & Hc4 & _ & Hfs4).
  destruct (get_prefix_returns H self ["archive.tar.gz"] s4)
    as (s5 & -> & Ht5 & Hc5 & _ & Hfs5 & _).
  pose proof (store_file_at_path_outcome H self a'
    (os_path_join (remote_path self)
       [strftime_Ymd (local (clock H (clock_reads s4))); "archive.tar.gz"])
    s5) as Hs.
  destruct (store_file_at_path H self a' _ s5) as [k1 s6|e s6]; [|done].
  destruct Hs as (-> & _ & c1' & Hbody1 & _ & Ht6 & Hc6 & _ & Hfs6).
  destruct (generate_url_returns H
    (os_path_join (remote_path self)
       [strftime_Ymd (local (clock H (clock_reads s4))); "archive.tar.gz"])
    (24 * 60 * 60) s6)
    as (s7 & -> & Ht7 & Hc7 & _ & Hfs7 & _).
  destruct (log_returns INFO ("Archive stored: " +:+ sign_url H
    (os_path_join (remote_path self)
       [strftime_Ymd (local (clock H (clock_reads s4))); "archive.tar.gz"])
    (24 * 60 * 60)) s7)
    as (s8 & -> & Ht8 & Hc8 & _ & Hfs8 & _).
  destruct (get_prefix_returns H self ["index.tsv.txt"] s8)
    as (s9 & -> & Ht9 & Hc9 & _ & Hfs9 & _).
  pose proof (store_file_at_path_outcome H self i'
    (os_path_join (remote_path self)
       [strftime_Ymd (local (clock H (clock_reads s8))); "index.tsv.txt"])
    s9) as Hs.
  destruct (store_file_at_path H self i' _ s9) as [k2 s10|e s10]; [|done].
  destruct Hs as (-> & _ & c2' & Hbody2 & _ & Ht10 & Hc10 & _ & Hfs10).
  destruct (generate_url_returns H
    (os_path_join (remote_path self)
       [strftime_Ymd (local (clock H (clock_reads s8))); "index.tsv.txt"])
    (24 * 60 * 60) s10)
    as (s11 & -> & Ht11 & Hc11 & _ & Hfs11 & _).
  destruct (log_returns INFO ("Index stored: " +:+ sign_url H
    (os_path_join (remote_path self)
       [strftime_Ymd (local (clock H (clock_reads s8))); "index.tsv.txt"])
    (24 * 60 * 60)) s11)
    as (s12 & -> & Ht12 & Hc12 & _ & Hfs12 & _).
  destruct (log_returns INFO "Files archived" s12)
    as (s13 & -> & Ht13 & Hc13 & _ & Hfs13 & _).
  intros [= <-].
  (* the files the two uploads read *)
  assert (fs s13 = fs s2) as Hfs by congruence.
  assert (fs s5 = fs s2) as Hfs5' by congruence.
  assert (fs s9 = fs s2) as Hfs9' by congruence.
  rewrite Hfs5', Hfs2 in Hbody1. rewrite Hfs9', Hfs2 in Hbody2.
  assert (a' ≠ i') as Hne by congruence.
  rewrite lookup_insert_ne, Harchive in Hbody1 by done.
  rewrite lookup_insert_eq in Hbody2.
  injection Hbody1 as <-. injection Hbody2 as <-.
  rewrite Hfs1 in Harchive, Hfresh2, Hfs2.
  exists a', i', (names_drawn s1), pos', entries, members.
  split; [done|]. split; [done|]. split; [done|]. split; [done|].
  split; [by rewrite Hfs, Hfs2|].
  rewrite Hc1 in Hc2. rewrite Hc2 in Hc3. rewrite Hc3 in Hc4.
  rewrite Hc4 in Hc5. rewrite Hc5 in Hc6. rewrite Hc6 in Hc7.
  rewrite Hc7 in Hc8. rewrite Hc8 in Hc9. rewrite Hc9 in Hc10.
  rewrite Hc10 in Hc11. rewrite Hc11 in Hc12. rewrite Hc12 in Hc13.
  split; [|lia].
  rewrite Ht13, Ht12, Ht11, Ht10, Ht9, Ht8, Ht7, Ht6, Ht5, Ht4, Ht3, Ht2, Ht1.
  rewrite <- !app_assoc. f_equal.
  rewrite Hc9, Hc8, Hc5, Hc4, Hc3, Hc2.
  reflexivity.
Qed.

(** A run returns when its two temporary names are free, the source is a
    directory, the packing command left an archive whose member names can be
    written, and the storage client serves the three uploads. *)
Lemma archive_files_returns H self s archive_path pos entries members
    index_path pos' :
  fresh_name H TMP_MAX (names_drawn s) (fs s) = Some (archive_path, pos) →
  fs s !! realpath H (local_path self) = Some (Directory entries) →
  (packing H self s archive_path).1 !! archive_path
  = Some (Regular (TarGz members)) →
  fresh_name H TMP_MAX pos (packing H self s archive_path).1
  = Some (index_path, pos') →
  encodable_names members →
  (∀ j, j < 3 → s3_up H (j + requests s) = true) →
  ∃ s', archive_files H self s = Returned tt s'.
Proof.
  intros Hfresh Hdir Harchive Hfresh2 Hnames Hup.
  assert (s3_up H (requests s) = true) as Hup0 by (apply (Hup 0); lia).
  assert (s3_up H (S (requests s)) = true) as Hup1 by (apply (Hup 1); lia).
  assert (s3_up H (S (S (requests s))) = true) as Hup2
    by (apply (Hup 2); lia).
  unfold archive_files, bind.
  destruct (create_archive_succeeds H self (local_path self) s archive_path
              pos entries Hfresh Hdir) as (s1 & Ha). rewrite Ha.
  destruct (offline_create_archive H self (local_path self) s)
    as (_ & Hr1 & _). rewrite Ha in Hr1. simpl in Hr1.
  pose proof (create_archive_names_drawn _ _ _ _ _ _ Ha) as Hdrawn.
  rewrite Hfresh in Hdrawn. injection Hdrawn as Hdrawn.
  apply create_archive_returned in Ha as (_ & _ & _ & _ & Hfs1 & _).
  change (sh H (tar_command archive_path) (realpath H (local_path self))
            (<[archive_path:=Regular (Data "")]> (fs s)))
    with (packing H self s archive_path) in Hfs1.
  destruct (create_index_succeeds H self archive_path s1 members index_path
              pos') as (s2 & Hi & Hfs2 & _);
    [by rewrite Hfs1|by rewrite <- Hdrawn, Hfs1|done|].
  rewrite Hi.
  destruct (offline_create_index H self archive_path s1) as (_ & Hr2 & _).
  rewrite Hi in Hr2. simpl in Hr2.
  assert (archive_path ≠ index_path) as Hne.
  { apply fresh_name_free in Hfresh2. congruence. }
  (* the directory marker *)
  destruct (get_prefix_returns H self [] s2)
    as (s3 & -> & _ & _ & Hr3 & Hfs3 & _).
  match goal with
  | |- context [create_directory H self ?prefix s3] =>
      pose proof (create_directory_outcome H self prefix s3) as Hd;
      destruct (create_directory H self prefix s3) as [[] s4|e s4]
  end.
  2: { destruct Hd as (Hdown & _).
       rewrite Hr3, Hr2, Hr1, Hup0 in Hdown. done. }
  destruct Hd as (_ & _ & _ & _ & Hr4 & Hfs4).
  (* the archive *)
  destruct (get_prefix_returns H self ["archive.tar.gz"] s4)
    as (s5 & -> & _ & _ & Hr5 & Hfs5 & _).
  match goal with
  | |- context [store_file_at_path H self archive_path ?key s5] =>
      pose proof (store_file_at_path_outcome H self archive_path key s5)
        as Hs;
      destruct (store_file_at_path H self archive_path key s5)
        as [k1 s6|e s6]
  end.
  2: { destruct Hs as (_ & _ & _ & [(_ & _ & Hmissing)|(_ & Hdown & _)]).
       - destruct (Hmissing (TarGz members)).
         rewrite Hfs5, Hfs4, Hfs3, Hfs2, lookup_insert_ne by done.
         by rewrite Hfs1.
       - rewrite Hr5, Hr4, Hr3, Hr2, Hr1, Hup1 in Hdown. done. }
  destruct Hs as (-> & _ & c1 & _ & _ & _ & _ & Hr6 & Hfs6).
  match goal with
  | |- context [generate_url H ?key ?t s6] =>
      destruct (generate_url_returns H key t s6)
        as (s7 & -> & _ & _ & Hr7 & Hfs7 & _)
  end.
  match goal with
  | |- context [log INFO ?msg s7] =>
      destruct (log_returns INFO msg s7) as (s8 & -> & _ & _ & Hr8 & Hfs8 & _)
  end.
  (* the manifest *)
  destruct (get_prefix_returns H self ["index.tsv.txt"] s8)
    as (s9 & -> & _ & _ & Hr9 & Hfs9 & _).
  match goal with
  | |- context [store_file_at_path H self index_path ?key s9] =>
      pose proof (store_file_at_path_outcome H self index_path key s9) as Hs;
      destruct (store_file_at_path H self index_path key s9) as [k2 s10|e s10]
  end.
  2: { destruct Hs as (_ & _ & _ & [(_ & _ & Hmissing)|(_ & Hdown & _)]).
       - destruct (Hmissing (Data (manifest members))).
         rewrite Hfs9, Hfs8, Hfs7, Hfs6, Hfs5, Hfs4, Hfs3, Hfs2.
         apply lookup_insert_eq.
       - rewrite Hr9, Hr8, Hr7, Hr6, Hr5, Hr4, Hr3, Hr2, Hr1, Hup2 in Hdown.
         done. }
  destruct Hs as (-> & _).
  match goal with
  | |- context [generate_url H ?key ?t s10] =>
      destruct (generate_url_returns H key t s10) as (s11 & -> & _)
  end.
  match goal with
  | |- context [log INFO ?msg s11] =>
      destruct (log_returns INFO msg s11) as (s12 & -> & _)
  end.
  destruct (log_returns INFO "Files archived" s12) as (s13 & -> & _).
  by exists s13.
Qed.

(** Such a run performed the whole sequence, with exactly three operations
    of the storage client. *)
Lemma archive_files_succeeds H self s archive_path pos entries members
    index_path pos' :
  fresh_name H TMP_MAX (names_drawn s) (fs s) = Some (archive_path, pos) →
  fs s !! realpath H (local_path self) = Some (Directory entries) →
  (packing H self s archive_path).1 !! archive_path
  = Some (Regular (TarGz members)) →
  fresh_name H TMP_MAX pos (packing H self s archive_path).1
  = Some (index_path, pos') →
  encodable_names members →
  (∀ j, j < 3 → s3_up H (j + requests s) = true) →
  ∃ s',
    archive_files H self s = Returned tt s'
    ∧ trace s' = trace s ++
        run_events H self s archive_path index_path
          (packing H self s archive_path).2
          (TarGz members) (Data (manifest members))
    ∧ requests s' = 3 + requests s.
Proof.
  intros Hfresh Hdir Harchive Hfresh2 Hnames Hup.
  destruct (archive_files_returns H self s archive_path pos entries members
              index_path pos') as (s' & Hrun); [done..|].
  exists s'. split; [done|].
  destruct (archive_files_returned H self s s' Hrun)
    as (a & i & p & p' & es & ms & Hfresh' & _ & Harchive' & Hfresh2' & _
        & Ht & _).
  rewrite Hfresh in Hfresh'. injection Hfresh' as <- <-.
  rewrite Harchive in Harchive'. injection Harchive' as <-.
  rewrite Hfresh2 in Hfresh2'. injection Hfresh2' as <- <-.
  split; [done|].
  destruct (metered_archive_files H self s) as (l & Ht' & Hr).
  rewrite Hrun in Ht', Hr. simpl in Ht'.
  rewrite Ht in Ht'. apply app_inv_head in Ht'. subst l.
  by rewrite Hr, put_keys_run_events.
Qed.



(** C10: the directory marker is uploaded with the access policy [private],
    the policy of the archive and of the manifest.  A call of
    [create_directory] that the storage client serves stores at the prefix an
    object whose policy is [private].  And a run of [archive_files] that
    meets the conditions above returns having uploaded three objects, the
    marker first: the marker, with no content, the archive and the manifest,
    all three with the policy [private]. *)
Theorem C10_directory_marker_private H self s archive_path pos entries
    members index_path pos' :
  fresh_name H TMP_MAX (names_drawn s) (fs s) = Some (archive_path, pos) →
  fs s !! realpath H (local_path self) = Some (Directory entries) →
  (packing H self s archive_path).1 !! archive_path
  = Some (Regular (TarGz members)) →
  fresh_name H TMP_MAX pos (packing H self s archive_path).1
  = Some (index_path, pos') →
  encodable_names members →
  (∀ j, j < 3 → s3_up H (j + requests s) = true) →
  (∀ prefix s1,
     s3_up H (requests s1) = true →
     ∃ s2 marker,
       create_directory H self prefix s1 = Returned tt s2
       ∧ objects s2 !! prefix = Some marker
       ∧ trace s2 = trace s1 ++ [PutString prefix marker]
       ∧ policy marker = "private")
  ∧ ∃ s' status k0 k1 k2 marker archive index,
      archive_files H self s = Returned tt s'
      ∧ trace s' = trace s ++
          linear_run archive_path index_path (realpath H (local_path self))
            status k0 k1 k2 marker archive index
      ∧ policy marker = "private"
      ∧ body marker = Data ""
      ∧ policy archive = policy marker
      ∧ body archive = TarGz members
      ∧ policy index = policy marker
      ∧ body index = Data (manifest members).
Proof.
  intros Hfresh Hdir Harchive Hfresh2 Hnames Hup. split.
  - intros prefix s1 Hup1.
    pose proof (create_directory_outcome H self prefix s1) as Hd.
    destruct (create_directory H self prefix s1) as [[] s2|e s2].
    + destruct Hd as (_ & Ho & Ht & _). eexists s2, _.
      split; [done|]. rewrite Ho, lookup_insert_eq.
      split; [done|]. by split.
    + destruct Hd as (Hdown & _). congruence.
  - destruct (archive_files_succeeds H self s archive_path pos entries
                members index_path pos') as (s' & Hrun & Ht & _); [done..|].
    unfold run_events in Ht.
    eexists s', _, _, _, _, _, _, _. split; [exact Hrun|].
    split; [exact Ht|]. by repeat split.
Qed.

Lemma C10_directory_marker_private_witness :
  ∃ s' marker archive index,
    archive_files host_2024_03_05 manager_desktop
      (initial_state desktop_files) = Returned tt s'
    ∧ trace s' =
        linear_run "/tmp/tmp0" "/tmp/tmp1" "/home/user/Desktop/" 0
          "desktop/2024-03-05" "desktop/2024-03-05/archive.tar.gz"
          "desktop/2024-03-05/index.tsv.txt" marker archive index
    ∧ policy marker = "private"
    ∧ policy archive = "private"
    ∧ policy index = "private".
Proof.
  destruct (C10_directory_marker_private host_2024_03_05 manager_desktop
              (initial_state desktop_files) "/tmp/tmp0" 1 desktop_tree
              desktop_archive "/tmp/tmp1" 2)
    as (_ & s' & st & k0 & k1 & k2 & marker & archive & index & Hrun & Ht
        & Hmarker & _ & Harchive & _ & Hindex & _).
  - vm_compute. reflexivity.
  - reflexivity.
  - vm_compute. reflexivity.
  - vm_compute. reflexivity.
  - unfold encodable_names, desktop_archive. repeat constructor.
  - intros j _. reflexivity.
  - assert (trace (final_state (archive_files host_2024_03_05 manager_desktop
                                  (initial_state desktop_files)))
            = linear_run "/tmp/tmp0" "/tmp/tmp1" "/home/user/Desktop/" 0
                "desktop/2024-03-05" "desktop/2024-03-05/archive.tar.gz"
                "desktop/2024-03-05/index.tsv.txt"
                (directory_marker 1709640001)
                (file_upload (TarGz desktop_archive) 1709640003)
                (file_upload (Data (manifest desktop_archive)) 1709640005))
      as Hconcrete by (vm_compute; reflexivity).
    rewrite Hrun in Hconcrete. simpl in Hconcrete.
    eexists _, _, _, _. split; [exact Hrun|].
    split; [exact Hconcrete|]. by repeat split.
Defined.

(** ** Failures of the local steps *)

(** X4: when the source path is not a directory, [create_archive] raises
    OSError for that path; by then it has created its temporary file, which
    it leaves behind empty, and the packing command was not run. *)
Theorem create_archive_not_a_directory H self path s tempfilename pos :
  fresh_name H TMP_MAX (names_drawn s) (fs s) = Some (tempfilename, pos) →
  (∀ entries, fs s !! realpath H path ≠ Some (Directory entries)) →
  ∃ s',
    create_archive H self path s = Raised (OSError (realpath H path)) s'
    ∧ fs s' = <[tempfilename := Regular (Data "")]> (fs s)
    ∧ trace s' = trace s ++ [Mkstemp tempfilename].
Proof.
  intros Hfresh Hdir.
  unfold create_archive, bind, log, mkstemp, subprocess_Popen. simpl.
  rewrite Hfresh. simpl.
  destruct (decide (realpath H path = tempfilename)) as [->|Hne].
  - rewrite lookup_insert_eq. by eexists.
  - rewrite lookup_insert_ne by done.
    destruct (fs s !! realpath H path) as [[c|entries]|] eqn:E;
      try by eexists.
    by destruct (Hdir entries).
Qed.

Lemma create_archive_not_a_directory_witness :
  ∃ s',
    create_archive host_2024_03_05 manager_desktop "/home/user/Documents/"
      (initial_state desktop_files)
    = Raised (OSError "/home/user/Documents/") s'
    ∧ fs s' = <["/tmp/tmp0" := Regular (Data "")]> desktop_files
    ∧ trace s' = [Mkstemp "/tmp/tmp0"].
Proof.
  apply (create_archive_not_a_directory host_2024_03_05 manager_desktop
           "/home/user/Documents/" (initial_state desktop_files)
           "/tmp/tmp0" 1).
  - vm_compute. reflexivity.
  - intros entries. vm_compute. discriminate.
Defined.

Lemma tar_failure_empty H : tar_failure H "" = OpenFails ReadError.
Proof. reflexivity. Qed.

(** [create_index_from_archive] on data that is not an archive. *)
Lemma create_index_of_data H self archive_path s index_path pos d :
  fresh_name H TMP_MAX (names_drawn s) (fs s) = Some (index_path, pos) →
  fs s !! archive_path = Some (Regular (Data d)) →
  ∃ e s',
    create_index_from_archive H self archive_path s = Raised e s'
    ∧ (tar_failure H d = OpenFails e ∨ tar_failure H d = MembersFail e)
    ∧ fs s' = <[index_path := Regular (Data "")]> (fs s)
    ∧ put_keys (trace s') = put_keys (trace s).
Proof.
  intros Hfresh Harchive.
  pose proof (fresh_name_free _ _ _ _ _ _ Hfresh) as Hfree.
  rewrite create_index_steps. unfold mkstemp, log. simpl. rewrite Hfresh.
  unfold tarfile_open. simpl.
  rewrite lookup_insert_ne by congruence. rewrite Harchive.
  destruct (tar_failure H d) as [e|e] eqn:Hfail.
  - exists e. eexists. split; [done|]. split; [by left|]. simpl.
    split; [done|]. by rewrite put_keys_app, app_nil_r.
  - unfold bind at 1, emit at 1. unfold ret at 1. unfold bind at 1.
    unfold with_open_w, bind, open_w. simpl. rewrite lookup_insert_eq.
    unfold getmembers. rewrite Hfail. unfold raise, file_close, emit. simpl.
    exists e. eexists. split; [done|]. split; [by right|]. simpl.
    split; [by rewrite insert_insert_eq|].
    by rewrite !put_keys_app, !app_nil_r.
Qed.

(** X5: when the file at the archive path holds data that is not a tar
    archive, [create_index_from_archive] raises what [tarfile] raises for
    that data, when it opens the file or when it lists the members:
    ReadError for an empty file, and for other data what the library decides
    (EOFError for a gzip stream cut short).  By then it has created the
    temporary index file, which did not exist before and which it leaves
    behind empty; no other file is touched and nothing is uploaded. *)
Theorem create_index_not_an_archive H self archive_path s index_path pos d :
  fresh_name H TMP_MAX (names_drawn s) (fs s) = Some (index_path, pos) →
  fs s !! archive_path = Some (Regular (Data d)) →
  ∃ e s',
    create_index_from_archive H self archive_path s = Raised e s'
    ∧ (tar_failure H d = OpenFails e ∨ tar_failure H d = MembersFail e)
    ∧ (d = "" → e = ReadError)
    ∧ fs s' = <[index_path := Regular (Data "")]> (fs s)
    ∧ fs s !! index_path = None
    ∧ put_keys (trace s') = put_keys (trace s).
Proof.
  intros Hfresh Harchive.
  destruct (create_index_of_data H self archive_path s index_path pos d
              Hfresh Harchive) as (e & s' & Hrun & Hfail & Hfs & Hkeys).
  exists e, s'. split; [done|]. split; [done|]. split.
  { intros ->. rewrite tar_failure_empty in Hfail.
    by destruct Hfail as [[= <-]|[=]]. }
  split; [done|]. split; [by eapply fresh_name_free|done].
Qed.

Lemma create_index_not_an_archive_witness :
  ∃ e s',
    create_index_from_archive host_2024_03_05 manager_desktop "/tmp/empty"
      (initial_state files_with_empty) = Raised e s'
    ∧ (tar_failure host_2024_03_05 "" = OpenFails e
       ∨ tar_failure host_2024_03_05 "" = MembersFail e)
    ∧ ("" = "" → e = ReadError)
    ∧ fs s' = <["/tmp/tmp0" := Regular (Data "")]> files_with_empty
    ∧ fs (initial_state files_with_empty) !! "/tmp/tmp0" = None
    ∧ put_keys (trace s') = put_keys (trace (initial_state files_with_empty)).
Proof.
  apply (create_index_not_an_archive host_2024_03_05 manager_desktop
           "/tmp/empty" (initial_state files_with_empty) "/tmp/tmp0" 1 "").
  - vm_compute. reflexivity.
  - reflexivity.
Defined.

(** ** What a returning run leaves *)



(** X7: when the packing command leaves the temporary file without an
    archive in it (the command could not run, say, and the file is still
    empty, or it was stopped half way), the run does not upload an empty or
    broken archive: it raises when it comes to index the file, with the
    exception of [tarfile] (ReadError for the empty file) or with
    FileExistsError when no temporary name is free, and by then it has asked
    nothing of the storage client and has written nothing to the bucket. *)
Theorem archive_files_without_archive_uploads_nothing H self s tempfilename
    pos entries d :
  fresh_name H TMP_MAX (names_drawn s) (fs s) = Some (tempfilename, pos) →
  fs s !! realpath H (local_path self) = Some (Directory entries) →
  (packing H self s tempfilename).1 !! tempfilename
  = Some (Regular (Data d)) →
  ∃ e s',
    archive_files H self s = Raised e s'
    ∧ (tar_failure H d = OpenFails e ∨ tar_failure H d = MembersFail e
       ∨ e = FileExistsError)
    ∧ (d = "" → e = ReadError ∨ e = FileExistsError)
    ∧ objects s' = objects s
    ∧ requests s' = requests s
    ∧ put_keys (trace s') = put_keys (trace s).
Proof.
  intros Hfresh Hdir Hleft.
  destruct (create_archive_succeeds H self (local_path self) s tempfilename
              pos entries Hfresh Hdir) as (s1 & Ha).
  pose proof (offline_create_archive H self (local_path self) s) as Hoff1.
  rewrite Ha in Hoff1. simpl in Hoff1. destruct Hoff1 as (Ho1 & Hr1 & _).
  unfold archive_files, bind. rewrite Ha.
  apply create_archive_returned in Ha as (_ & _ & _ & _ & Hfs1 & Ht1 & _).
  unfold packing in Hleft. rewrite <- Hfs1 in Hleft.
  pose proof (offline_create_index H self tempfilename s1) as Hoff2.
  assert (put_keys (trace s1) = put_keys (trace s)) as Hkeys1.
  { rewrite Ht1, put_keys_app. simpl. by rewrite app_nil_r. }
  destruct (fresh_name H TMP_MAX (names_drawn s1) (fs s1))
    as [[index_path pos']|] eqn:Hfresh2.
  - destruct (create_index_of_data H self tempfilename s1 index_path pos' d
                Hfresh2 Hleft) as (e & s2 & Hi & Hfail & _ & Hkeys).
    rewrite Hi in Hoff2 |- *. simpl in Hoff2.
    destruct Hoff2 as (Ho2 & Hr2 & _).
    exists e, s2. split; [done|]. split; [tauto|]. split.
    { intros ->. left. rewrite tar_failure_empty in Hfail.
      by destruct Hfail as [[= <-]|[=]]. }
    split; [congruence|]. split; [congruence|]. congruence.
  - assert (create_index_from_archive H self tempfilename s1
            = Raised FileExistsError
                (final_state (log DEBUG "Generating archive index." s1)))
      as Hi.
    { rewrite create_index_steps. unfold mkstemp, log. simpl.
      by rewrite Hfresh2. }
    rewrite Hi. eexists _, _. split; [done|]. split; [tauto|].
    split; [by right|]. simpl. split; [done|]. by split.
Qed.

Lemma archive_files_without_archive_uploads_nothing_witness :
  ∃ e s',
    archive_files host_without_tar manager_desktop
      (initial_state desktop_files) = Raised e s'
    ∧ (tar_failure host_without_tar "" = OpenFails e
       ∨ tar_failure host_without_tar "" = MembersFail e
       ∨ e = FileExistsError)
    ∧ ("" = "" → e = ReadError ∨ e = FileExistsError)
    ∧ objects s' = objects (initial_state desktop_files)
    ∧ requests s' = requests (initial_state desktop_files)
    ∧ put_keys (trace s') = put_keys (trace (initial_state desktop_files)).
Proof.
  apply (archive_files_without_archive_uploads_nothing host_without_tar
           manager_desktop (initial_state desktop_files) "/tmp/tmp0" 1
           desktop_tree "").
  - vm_compute. reflexivity.
  - reflexivity.
  - reflexivity.
Defined.

(** ** The uploads *)

(** X8: creating the directory marker twice under the same prefix leaves
    one object there, the second marker in place of the first: the bucket has
    the same keys after the second call as after the first, every other
    object is untouched, and the marker carries the time of the second
    call. *)
Theorem create_directory_twice H self prefix s :
  s3_up H (requests s) = true →
  s3_up H (S (requests s)) = true →
  ∃ s1 s2,
    create_directory H self prefix s = Returned tt s1
    ∧ create_directory H self prefix s1 = Returned tt s2
    ∧ objects s2
      = <[prefix := directory_marker (epoch (clock H (S (clock_reads s))))]>
          (objects s)
    ∧ dom (objects s2) = dom (objects s1)
    ∧ ∀ key, key ≠ prefix → objects s2 !! key = objects s !! key.
Proof.
  intros Hup1 Hup2.
  pose proof (create_directory_outcome H self prefix s) as H1.
  destruct (create_directory H self prefix s) as [[] s1|e s1] eqn:E1;
    [|destruct H1 as (Hdown & _); congruence].
  destruct H1 as (_ & Ho1 & _ & Hc1 & Hr1 & _).
  pose proof (create_directory_outcome H self prefix s1) as H2.
  destruct (create_directory H self prefix s1) as [[] s2|e s2] eqn:E2;
    [|destruct H2 as (Hdown & _); congruence].
  destruct H2 as (_ & Ho2 & _).
  exists s1, s2. split; [done|]. split; [exact E2|].
  rewrite Ho2, Ho1, Hc1, insert_insert_eq. split; [done|]. split.
  - rewrite !dom_insert_L. set_solver.
  - intros key Hkey. by rewrite lookup_insert_ne.
Qed.

Lemma create_directory_twice_witness :
  ∃ s1 s2,
    create_directory host_2024_03_05 manager_desktop "desktop/2024-03-05"
      (initial_state desktop_files) = Returned tt s1
    ∧ create_directory host_2024_03_05 manager_desktop "desktop/2024-03-05"
        s1 = Returned tt s2
    ∧ objects s2
      = <["desktop/2024-03-05" := directory_marker 1709640001]>
          (objects (initial_state desktop_files))
    ∧ dom (objects s2) = dom (objects s1)
    ∧ ∀ key, key ≠ "desktop/2024-03-05" →
        objects s2 !! key = objects (initial_state desktop_files) !! key.
Proof.
  apply (create_directory_twice host_2024_03_05 manager_desktop
           "desktop/2024-03-05" (initial_state desktop_files)).
  - reflexivity.
  - reflexivity.
Defined.

(** X9: when the local file does not exist, [store_file_at_path] raises
    IOError for it without contacting the back end: no request is made and
    the bucket is unchanged. *)
Theorem store_file_at_path_missing_file H self local remote s :
  (∀ c, fs s !! local ≠ Some (Regular c)) →
  ∃ s',
    store_file_at_path H self local remote s = Raised (IOError local) s'
    ∧ objects s' = objects s
    ∧ requests s' = requests s
    ∧ trace s' = trace s.
Proof.
  intros Hmissing.
  unfold store_file_at_path, int_time_time, read_clock,
    set_contents_from_filename, read_file, bind, ret, log. simpl.
  destruct (fs s !! local) as [[c|entries]|] eqn:E; try by eexists.
  by destruct (Hmissing c).
Qed.

Lemma store_file_at_path_missing_file_witness :
  ∃ s',
    store_file_at_path host_2024_03_05 manager_desktop "/tmp/nothing"
      "desktop/2024-03-05/archive.tar.gz" (initial_state desktop_files)
    = Raised (IOError "/tmp/nothing") s'
    ∧ objects s' = objects (initial_state desktop_files)
    ∧ requests s' = requests (initial_state desktop_files)
    ∧ trace s' = trace (initial_state desktop_files).
Proof.
  apply (store_file_at_path_missing_file host_2024_03_05 manager_desktop
           "/tmp/nothing" "desktop/2024-03-05/archive.tar.gz"
           (initial_state desktop_files)).
  intros c. vm_compute. discriminate.
Defined.

(** X10: when the storage client reports that an upload failed,
    [create_directory] and [store_file_at_path] do not catch the exception
    of the client: they raise it, whichever it is (S3ResponseError for a
    request the back end refused, BotoServerError when the client has given
    up on a back end that keeps answering with a server error), and nothing
    is stored. *)
Theorem failed_upload_stores_nothing H self s :
  s3_up H (requests s) = false →
  (∀ prefix,
     ∃ s', create_directory H self prefix s
           = Raised (s3_error H (requests s)) s'
           ∧ objects s' = objects s
           ∧ trace s' = trace s)
  ∧ (∀ local remote c,
       fs s !! local = Some (Regular c) →
       ∃ s', store_file_at_path H self local remote s
             = Raised (s3_error H (requests s)) s'
             ∧ objects s' = objects s
             ∧ trace s' = trace s).
Proof.
  intros Hdown. split.
  - intros prefix.
    unfold create_directory, int_time_time, read_clock,
      set_contents_from_string, s3_request, bind, ret. simpl.
    rewrite Hdown. by eexists.
  - intros local remote c Hfile.
    unfold store_file_at_path, int_time_time, read_clock,
      set_contents_from_filename, read_file, s3_request, bind, ret, log.
    simpl. rewrite Hfile. simpl. rewrite Hdown. by eexists.
Qed.

Lemma failed_upload_stores_nothing_witness :
  (∀ prefix,
     ∃ s', create_directory host_s3_down manager_desktop prefix
             state_with_archive = Raised BotoServerError s'
           ∧ objects s' = ∅
           ∧ trace s' = [])
  ∧ (∀ local remote c,
       fs state_with_archive !! local = Some (Regular c) →
       ∃ s', store_file_at_path host_s3_down manager_desktop local remote
               state_with_archive = Raised BotoServerError s'
             ∧ objects s' = ∅
             ∧ trace s' = []).
Proof.
  apply (failed_upload_stores_nothing host_s3_down manager_desktop
           state_with_archive).
  reflexivity.
Defined.

(** ** The layout of the keys *)

Lemma slash_free_app (a b : string) :
  slash_free (a +:+ b) ↔ slash_free a ∧ slash_free b.
Proof.
  unfold slash_free. rewrite list_ascii_of_append, elem_of_app. tauto.
Qed.

Lemma slash_free_cons (c : ascii) (s : string) :
  slash_free (String c s) ↔ c ≠ "/"%char ∧ slash_free s.
Proof.
  unfold slash_free. cbn [String.list_ascii_of_string].
  rewrite not_elem_of_cons. split; intros [? ?]; split; congruence.
Qed.

Lemma slash_free_empty : slash_free "".
Proof. unfold slash_free. simpl. apply not_elem_of_nil. Qed.

Lemma pretty_N_char_not_slash (x : N) : pretty_N_char x ≠ "/"%char.
Proof. unfold pretty_N_char. by repeat case_match. Qed.

Lemma pretty_N_go_slash_free (x : N) : ∀ s,
  slash_free s → slash_free (pretty_N_go x s).
Proof.
  induction (N.lt_wf_0 x) as [x _ IH]. intros s Hs.
  destruct (decide (x = 0)%N) as [->|Hx]; [by rewrite pretty_N_go_0|].
  rewrite pretty_N_go_step by lia. apply IH.
  - apply N.div_lt; lia.
  - apply slash_free_cons. split; [apply pretty_N_char_not_slash|done].
Qed.

Lemma pretty_nat_slash_free (n : nat) : slash_free (pretty n).
Proof.
  unfold pretty, pretty_nat, pretty, pretty_N. case_decide.
  - apply slash_free_cons. split; [done|apply slash_free_empty].
  - apply pretty_N_go_slash_free, slash_free_empty.
Qed.

Lemma zfill_slash_free (width : nat) (s : string) :
  slash_free s → slash_free (zfill width s).
Proof.
  intros Hs. unfold zfill. apply slash_free_app. split; [|done].
  unfold slash_free. rewrite String.list_ascii_of_string_of_list_ascii.
  intros [Habs _]%elem_of_replicate. discriminate Habs.
Qed.

(** The date segment has no separator in it and is not empty. *)
Lemma strftime_Ymd_slash_free (d : datetime) : slash_free (strftime_Ymd d).
Proof.
  assert (slash_free "-") as Hdash
    by (apply slash_free_cons; split; [done|apply slash_free_empty]).
  unfold strftime_Ymd.
  apply slash_free_app; split;
    [apply zfill_slash_free, pretty_nat_slash_free|].
  apply slash_free_app; split; [exact Hdash|].
  apply slash_free_app; split;
    [apply zfill_slash_free, pretty_nat_slash_free|].
  apply slash_free_app; split; [exact Hdash|].
  apply zfill_slash_free, pretty_nat_slash_free.
Qed.

Lemma append_cons_not_empty (a b : string) (c : ascii) :
  a +:+ String c b ≠ "".
Proof. by destruct a. Qed.

Lemma strftime_Ymd_not_empty (d : datetime) : strftime_Ymd d ≠ "".
Proof. unfold strftime_Ymd. apply append_cons_not_empty. Qed.

Lemma startswith_slash_free (s : string) :
  slash_free s → startswith s "/" = false.
Proof.
  destruct s as [|c s]; [done|]. intros [Hc _]%slash_free_cons.
  unfold startswith. cbn [String.prefix].
  by destruct (ascii_dec "/" c).
Qed.

Lemma list_ascii_of_rev_app (a acc : string) :
  String.list_ascii_of_string (String.rev_app a acc)
  = reverse (String.list_ascii_of_string a)
    ++ String.list_ascii_of_string acc.
Proof.
  revert acc. induction a as [|c a IH]; intros acc; [done|].
  simpl. rewrite IH, reverse_cons. simpl. by rewrite <- app_assoc.
Qed.

Lemma string_of_list_ascii_app (l1 l2 : list ascii) :
  String.string_of_list_ascii (l1 ++ l2)
  = String.string_of_list_ascii l1 +:+ String.string_of_list_ascii l2.
Proof.
  induction l1 as [|c l1 IH]; [done|]. simpl. rewrite append_cons.
  by f_equal.
Qed.

Lemma rev_append (a b : string) :
  String.rev (a +:+ b) = String.rev b +:+ String.rev a.
Proof.
  rewrite <- (String.string_of_list_ascii_of_string (String.rev (a +:+ b))).
  rewrite <- (String.string_of_list_ascii_of_string (String.rev b)).
  rewrite <- (String.string_of_list_ascii_of_string (String.rev a)).
  rewrite <- string_of_list_ascii_app. f_equal.
  unfold String.rev. rewrite !list_ascii_of_rev_app, list_ascii_of_append.
  simpl. by rewrite !app_nil_r, reverse_app.
Qed.

(** A path that ends with a non-empty separator-free segment does not end
    with a separator. *)
Lemma endswith_slash_free (p s : string) :
  slash_free s → s ≠ "" → endswith (p +:+ s) "/" = false.
Proof.
  intros Hs Hne. unfold endswith. rewrite rev_append.
  assert (slash_free (String.rev s)) as Hrev.
  { unfold slash_free, String.rev in *. rewrite list_ascii_of_rev_app.
    simpl. rewrite app_nil_r. by rewrite elem_of_reverse. }
  destruct (String.rev s) as [|c r] eqn:E.
  - destruct s as [|c s]; [done|]. exfalso.
    apply (f_equal String.list_ascii_of_string) in E.
    unfold String.rev in E. rewrite list_ascii_of_rev_app in E.
    simpl in E. rewrite app_nil_r, reverse_cons in E.
    by destruct (reverse (String.list_ascii_of_string s)).
  - apply slash_free_cons in Hrev as [Hc _].
    rewrite append_cons. cbn [String.rev String.rev_app String.prefix].
    by destruct (ascii_dec "/" c).
Qed.

Lemma join_usual_prefix (remote date filename : string) :
  remote ≠ "" → endswith remote "/" = false →
  slash_free date → date ≠ "" → startswith filename "/" = false →
  os_path_join remote [date] = remote +:+ "/" +:+ date
  ∧ os_path_join remote [date; filename]
    = remote +:+ "/" +:+ date +:+ "/" +:+ filename.
Proof.
  intros Hremote Hend Hdate Hne Hfile.
  unfold os_path_join. cbn [join_onto].
  rewrite (startswith_slash_free _ Hdate), Hend, Hfile.
  rewrite bool_decide_eq_false_2 by done. cbn [orb]. split; [done|].
  rewrite bool_decide_eq_false_2 by (by destruct remote).
  cbn [orb].
  replace (remote +:+ "/" +:+ date) with ((remote +:+ "/") +:+ date)
    by apply append_assoc.
  rewrite (endswith_slash_free _ _ Hdate Hne).
  by rewrite !append_assoc.
Qed.

Lemma join_edge_prefix (remote date filename : string) :
  remote = "" ∨ endswith remote "/" = true →
  slash_free date → date ≠ "" → startswith filename "/" = false →
  os_path_join remote [date] = remote +:+ date
  ∧ os_path_join remote [date; filename]
    = remote +:+ date +:+ "/" +:+ filename.
Proof.
  intros Hremote Hdate Hne Hfile.
  unfold os_path_join. cbn [join_onto].
  rewrite (startswith_slash_free _ Hdate), Hfile.
  assert (bool_decide (remote = "") || endswith remote "/" = true) as ->.
  { destruct Hremote as [->| ->]; [done|apply orb_true_r]. }
  split; [done|].
  rewrite bool_decide_eq_false_2.
  - rewrite (endswith_slash_free _ _ Hdate Hne). cbn [orb].
    by rewrite append_assoc.
  - destruct remote; [done|by rewrite append_cons].
Qed.

(** X11: for a bucket prefix that is not empty and does not end with a
    slash, and for every reading of the clock, [get_prefix] returns
    `<prefix>/<date>` without components and `<prefix>/<date>/<filename>`
    with one component that does not start with a slash; the date segment
    never contains a slash, so the key has exactly these segments after the
    prefix. *)
Theorem get_prefix_layout H self s filename :
  remote_path self ≠ "" →
  endswith (remote_path self) "/" = false →
  startswith filename "/" = false →
  let date := strftime_Ymd (local (clock H (clock_reads s))) in
  slash_free date
  ∧ (∃ s', get_prefix H self [] s
           = Returned (remote_path self +:+ "/" +:+ date) s')
  ∧ (∃ s', get_prefix H self [filename] s
           = Returned (remote_path self +:+ "/" +:+ date +:+ "/"
                       +:+ filename) s').
Proof.
  intros Hremote Hend Hfile date. subst date.
  destruct (join_usual_prefix (remote_path self)
              (strftime_Ymd (local (clock H (clock_reads s)))) filename
              Hremote Hend
              (strftime_Ymd_slash_free _) (strftime_Ymd_not_empty _) Hfile)
    as [Hdir Hkey].
  split; [apply strftime_Ymd_slash_free|]. split.
  - destruct (get_prefix_returns H self [] s) as (s' & -> & _).
    exists s'. by rewrite Hdir.
  - destruct (get_prefix_returns H self [filename] s) as (s' & -> & _).
    exists s'. by rewrite Hkey.
Qed.

Lemma get_prefix_layout_witness :
  slash_free "2024-03-05"
  ∧ (∃ s', get_prefix host_2024_03_05 manager_desktop []
             (initial_state desktop_files)
           = Returned "desktop/2024-03-05" s')
  ∧ (∃ s', get_prefix host_2024_03_05 manager_desktop ["archive.tar.gz"]
             (initial_state desktop_files)
           = Returned "desktop/2024-03-05/archive.tar.gz" s').
Proof.
  apply (get_prefix_layout host_2024_03_05 manager_desktop
           (initial_state desktop_files) "archive.tar.gz").
  - discriminate.
  - reflexivity.
  - reflexivity.
Defined.

(** X12: with an empty bucket prefix the keys start with the date, without
    a leading slash; with a bucket prefix that ends with a slash the date
    follows it directly, without a doubled slash. *)
Theorem get_prefix_edge_prefixes H self s filename :
  remote_path self = "" ∨ endswith (remote_path self) "/" = true →
  startswith filename "/" = false →
  let date := strftime_Ymd (local (clock H (clock_reads s))) in
  (∃ s', get_prefix H self [] s = Returned (remote_path self +:+ date) s')
  ∧ (∃ s', get_prefix H self [filename] s
           = Returned (remote_path self +:+ date +:+ "/" +:+ filename) s').
Proof.
  intros Hremote Hfile date. subst date.
  destruct (join_edge_prefix (remote_path self)
              (strftime_Ymd (local (clock H (clock_reads s)))) filename
              Hremote
              (strftime_Ymd_slash_free _) (strftime_Ymd_not_empty _) Hfile)
    as [Hdir Hkey].
  split.
  - destruct (get_prefix_returns H self [] s) as (s' & -> & _).
    exists s'. by rewrite Hdir.
  - destruct (get_prefix_returns H self [filename] s) as (s' & -> & _).
    exists s'. by rewrite Hkey.
Qed.

Lemma get_prefix_edge_prefixes_witness :
  ((∃ s', get_prefix host_2024_03_05 manager_no_prefix []
            (initial_state desktop_files) = Returned "2024-03-05" s')
   ∧ (∃ s', get_prefix host_2024_03_05 manager_no_prefix ["index.tsv.txt"]
              (initial_state desktop_files)
            = Returned "2024-03-05/index.tsv.txt" s'))
  ∧ ((∃ s', get_prefix host_2024_03_05 manager_slash_prefix []
              (initial_state desktop_files)
            = Returned "desktop/2024-03-05" s')
     ∧ (∃ s', get_prefix host_2024_03_05 manager_slash_prefix
                ["index.tsv.txt"] (initial_state desktop_files)
              = Returned "desktop/2024-03-05/index.tsv.txt" s')).
Proof.
  split.
  - apply (get_prefix_edge_prefixes host_2024_03_05 manager_no_prefix
             (initial_state desktop_files) "index.tsv.txt").
    + by left.
    + reflexivity.
  - apply (get_prefix_edge_prefixes host_2024_03_05 manager_slash_prefix
             (initial_state desktop_files) "index.tsv.txt").
    + by right.
    + reflexivity.
Defined.

(** ** The credential file and the command line *)

(** A character that is neither white space nor beyond ASCII: [strip] stops
    at it, from either side. *)
Lemma blank_ascii (c : ascii) : is_blank c → (N_of_ascii c < 128)%N.
Proof.
  unfold is_blank, whitespace. cbn [fmap list_fmap]. intros Hc.
  repeat (apply elem_of_cons in Hc as [->|Hc]; [done|]).
  by apply elem_of_nil in Hc.
Qed.

Lemma key_char_not_blank (c : ascii) : key_char c → c ∉ whitespace.
Proof.
  intros [[Hlow _] _]. unfold whitespace. cbn [fmap list_fmap]. intros Hc.
  repeat (apply elem_of_cons in Hc as [->|Hc]; [by apply Hlow|]).
  by apply elem_of_nil in Hc.
Qed.

Lemma key_char_ascii (c : ascii) : key_char c → (N_of_ascii c < 128)%N.
Proof. intros [[_ Hhigh] _]. lia. Qed.

Lemma wide_whitespace_heads :
  forallb (λ t, match t with
                | c :: _ => (127 <? N_of_ascii c)%N
                | [] => true
                end) (wide_whitespace ++ (reverse <$> wide_whitespace))
  = true.
Proof. vm_compute. reflexivity. Qed.

Lemma lstrip_of_blank (wide : list (list ascii)) (w l : list ascii) :
  Forall is_blank w →
  lstrip_of whitespace wide (w ++ l) = lstrip_of whitespace wide l.
Proof.
  induction 1 as [|c w Hc _ IH]; [done|]. cbn [app lstrip_of].
  by rewrite bool_decide_eq_true_2.
Qed.

Lemma lstrip_of_stops (wide : list (list ascii)) (c : ascii)
    (l : list ascii) :
  wide = wide_whitespace ∨ wide = reverse <$> wide_whitespace →
  c ∉ whitespace → (N_of_ascii c < 128)%N →
  lstrip_of whitespace wide (c :: l) = c :: l.
Proof.
  intros Hwide Hc Hascii.
  assert (∀ t, t ∈ wide → head t ≠ Some c) as Hhead.
  { intros t Ht Heq.
    assert (t ∈ wide_whitespace ++ (reverse <$> wide_whitespace)) as Hin.
    { apply elem_of_app. destruct Hwide as [-> | ->]; tauto. }
    apply list_elem_of_In in Hin.
    apply (proj1 (forallb_forall _ _) wide_whitespace_heads) in Hin.
    destruct t as [|c' t]; [done|]. injection Heq as ->.
    apply N.ltb_lt in Hin. lia. }
  cbn [lstrip_of]. rewrite bool_decide_eq_false_2 by done.
  destruct l as [|c1 [|c2 l]]; [done|..].
  - rewrite bool_decide_eq_false_2; [done|].
    intros Hin. by apply (Hhead _ Hin).
  - rewrite bool_decide_eq_false_2 by (intros Hin; by apply (Hhead _ Hin)).
    rewrite bool_decide_eq_false_2; [done|].
    intros Hin. by apply (Hhead _ Hin).
Qed.

Lemma lstrip_of_all_blank (wide : list (list ascii)) (w : list ascii) :
  Forall is_blank w → lstrip_of whitespace wide w = [].
Proof.
  intros Hw. rewrite <- (app_nil_r w). by rewrite lstrip_of_blank.
Qed.

(** [strip] removes the white space around a text that starts and ends
    with characters of ASCII that are not white space. *)
Lemma strip_blank_around (before x after : list ascii) :
  Forall is_blank before → Forall is_blank after →
  Forall (λ c, (c ∉ whitespace) ∧ (N_of_ascii c < 128)%N) x →
  strip (String.string_of_list_ascii (before ++ x ++ after))
  = String.string_of_list_ascii x.
Proof.
  intros Hbefore Hafter Hx. unfold strip, lstrip, rstrip.
  rewrite String.list_ascii_of_string_of_list_ascii.
  rewrite lstrip_of_blank by done. f_equal.
  destruct Hx as [|c x [Hc Hascii] Hx].
  { rewrite app_nil_l, (lstrip_of_all_blank _ after) by done. done. }
  rewrite <- app_comm_cons, lstrip_of_stops by (done || by left).
  rewrite app_comm_cons, reverse_app.
  rewrite lstrip_of_blank by (by apply Forall_reverse).
  assert (Forall (λ c, (c ∉ whitespace) ∧ (N_of_ascii c < 128)%N)
            (reverse (c :: x))) as Hrev
    by (by apply Forall_reverse, Forall_cons).
  destruct (reverse (c :: x)) as [|c' x'] eqn:Erev.
  { apply (f_equal reverse) in Erev. by rewrite reverse_involutive in Erev. }
  apply Forall_cons in Hrev as [[Hc' Hascii'] _].
  rewrite lstrip_of_stops by (done || by right).
  by rewrite <- Erev, reverse_involutive.
Qed.

(** Translating the line ends keeps white space white and leaves a text
    without carriage returns as it is. *)
Lemma universal_newlines_blank (l : list ascii) :
  Forall is_blank l → Forall is_blank (universal_newlines l).
Proof.
  remember (length l) as n eqn:Hn. revert l Hn.
  induction n as [n IH] using lt_wf_ind. intros l -> Hl.
  destruct Hl as [|c l Hc Hl]; [constructor|].
  cbn [universal_newlines]. case_bool_decide.
  - apply Forall_cons. split.
    { apply (bool_decide_unpack _). vm_compute. exact I. }
    destruct Hl as [|c1 l Hc1 Hl]; [constructor|].
    case_bool_decide; (eapply IH; [|done|]); simpl; try lia.
    + done.
    + by apply Forall_cons.
  - apply Forall_cons. split; [done|]. eapply IH; [|done..]. simpl. lia.
Qed.

Lemma universal_newlines_plain (x l : list ascii) :
  Forall (λ c, c ∉ whitespace) x →
  universal_newlines (x ++ l) = x ++ universal_newlines l.
Proof.
  induction 1 as [|c x Hc _ IH]; [done|].
  cbn [app universal_newlines]. rewrite bool_decide_eq_false_2.
  - by rewrite IH.
  - intros ->. apply Hc. apply (bool_decide_unpack _). vm_compute. exact I.
Qed.

Lemma universal_newlines_before (before rest : list ascii) :
  head rest ≠ Some (ascii_of_nat 10) →
  universal_newlines (before ++ rest)
  = universal_newlines before ++ universal_newlines rest.
Proof.
  intros Hlf.
  remember (length before) as n eqn:Hn. revert before Hn.
  induction n as [n IH] using lt_wf_ind. intros before ->.
  destruct before as [|b before]; [done|].
  cbn [app]. cbn [universal_newlines].
  case_bool_decide as Hcr.
  - destruct before as [|b1 before]; cbn [app].
    + destruct rest as [|c rest]; [done|].
      rewrite bool_decide_eq_false_2; [done|]. intros ->. by apply Hlf.
    + case_bool_decide; cbn [app]; f_equal.
      * eapply IH; [|done]. simpl. lia.
      * rewrite app_comm_cons.
        apply (IH (length (b1 :: before))); [simpl; lia|done].
  - cbn [app]. f_equal. eapply IH; [|done]. simpl. lia.
Qed.

(** The text of a credential file with its two keys. *)
Lemma credentials_text (before access secret after : string) :
  all_chars key_char access → all_chars key_char secret →
  all_chars is_blank before → all_chars is_blank after →
  utf8_valid (before +:+ access +:+ ":" +:+ secret +:+ after) = true
  ∧ split ":"
      (strip (String.string_of_list_ascii
                (universal_newlines
                   (String.list_ascii_of_string
                      (before +:+ access +:+ ":" +:+ secret +:+ after)))))
    = [access; secret].
Proof.
  intros Haccess Hsecret Hbefore Hafter. split.
  - apply utf8_valid_ascii.
    apply all_chars_app. split.
    { eapply Forall_impl; [exact Hbefore|]. apply blank_ascii. }
    apply all_chars_app. split.
    { eapply Forall_impl; [exact Haccess|]. apply key_char_ascii. }
    apply all_chars_app. split; [by repeat constructor|].
    apply all_chars_app. split.
    { eapply Forall_impl; [exact Hsecret|]. apply key_char_ascii. }
    eapply Forall_impl; [exact Hafter|]. apply blank_ascii.
  - unfold all_chars in *.
    assert (Forall (λ c, (c ∉ whitespace) ∧ (N_of_ascii c < 128)%N)
              (String.list_ascii_of_string (access +:+ String ":" secret)))
      as Hkeys.
    { rewrite list_ascii_of_append. apply Forall_app. split.
      - eapply Forall_impl; [exact Haccess|]. intros c Hc.
        split; [by apply key_char_not_blank|by apply key_char_ascii].
      - cbn [String.list_ascii_of_string]. apply Forall_cons. split.
        + split; [|done]. apply (bool_decide_unpack _). vm_compute. exact I.
        + eapply Forall_impl; [exact Hsecret|]. intros c Hc.
          split; [by apply key_char_not_blank|by apply key_char_ascii]. }
    assert (String.list_ascii_of_string
              (before +:+ access +:+ ":" +:+ secret +:+ after)
            = String.list_ascii_of_string before
              ++ String.list_ascii_of_string (access +:+ String ":" secret)
              ++ String.list_ascii_of_string after) as ->.
    { rewrite <- !list_ascii_of_append. by rewrite !append_assoc. }
    assert (∃ c rest, String.list_ascii_of_string
                        (access +:+ String ":" secret) = c :: rest)
      as (c & rest & Hcons).
    { destruct access; rewrite ?append_cons; simpl; eauto. }
    rewrite Hcons in Hkeys |- *. rewrite <- app_comm_cons.
    rewrite universal_newlines_before.
    2: { simpl. intros [= ->]. apply Forall_cons in Hkeys as [[Hc _] _].
         apply Hc. apply (bool_decide_unpack _). vm_compute. exact I. }
    rewrite app_comm_cons, universal_newlines_plain
      by (eapply Forall_impl; [exact Hkeys|]; by intros ? [? _]).
    rewrite strip_blank_around;
      [|by apply universal_newlines_blank..|done].
    rewrite <- Hcons, String.string_of_list_ascii_of_string.
    rewrite split_first_field.
    + rewrite split_no_separator; [done|].
      intros Hin. rewrite Forall_forall in Hsecret.
      by destruct (Hsecret _ Hin) as [_ Hne].
    + intros Hin. rewrite Forall_forall in Haccess.
      by destruct (Haccess _ Hin) as [_ Hne].
Qed.

(** X13: a credential file that holds an access key and a secret key
    separated by a colon, with any white space of ASCII before and after
    (the usual final newline, for one), is read back as exactly these two
    keys, when the keys are made of printable ASCII characters other than
    the colon.  The file system is left as it was. *)
Theorem credentials_are_read_back H s access secret before after :
  all_chars key_char access → all_chars key_char secret →
  all_chars is_blank before → all_chars is_blank after →
  fs s !! passwd_s3fs H
  = Some (Regular (Data (before +:+ access +:+ ":" +:+ secret +:+ after))) →
  get_access_key_and_secret_from_s3fs H s = Returned [access; secret] s.
Proof.
  unfold passwd_s3fs. intros Haccess Hsecret Hbefore Hafter Hfile.
  destruct (credentials_text before access secret after)
    as [Hvalid Hfields]; [done..|].
  unfold get_access_key_and_secret_from_s3fs, read_text, read_file,
    expanduser, bind.
  rewrite Hfile, Hvalid. unfold ret. by rewrite Hfields.
Qed.

Lemma credentials_are_read_back_witness :
  get_access_key_and_secret_from_s3fs host_2024_03_05
    (initial_state files_with_credentials)
  = Returned ["AKIAEXAMPLE"; "s3cr3t"] (initial_state files_with_credentials).
Proof.
  apply (credentials_are_read_back host_2024_03_05
           (initial_state files_with_credentials) "AKIAEXAMPLE" "s3cr3t"
           "" NL).
  - unfold all_chars, key_char. apply (bool_decide_unpack _). vm_compute.
    exact I.
  - unfold all_chars, key_char. apply (bool_decide_unpack _). vm_compute.
    exact I.
  - unfold all_chars, is_blank. apply (bool_decide_unpack _). vm_compute.
    exact I.
  - unfold all_chars, is_blank. apply (bool_decide_unpack _). vm_compute.
    exact I.
  - reflexivity.
Defined.

(** ** The fields of the credential file *)

(** The separators of a text: [split] gives one field more than there are
    separators, and neither [strip] nor the translation of the line ends
    removes or adds one. *)
Lemma split_length (sep : ascii) (s : string) :
  length (split sep s)
  = S (length (filter (λ c, c = sep) (String.list_ascii_of_string s))).
Proof.
  induction s as [|c s IH]; [done|].
  cbn [split String.list_ascii_of_string]. case_bool_decide as Hc.
  - rewrite filter_cons_True by done. simpl. by rewrite IH.
  - rewrite filter_cons_False by done.
    destruct (split sep s) as [|w ws]; [done|]. by rewrite <- IH.
Qed.

Lemma lstrip_of_separators (sep : ascii) (narrow : list ascii)
    (wide : list (list ascii)) (l : list ascii) :
  sep ∉ narrow → (∀ t, t ∈ wide → sep ∉ t) →
  length (filter (λ c, c = sep) (lstrip_of narrow wide l))
  = length (filter (λ c, c = sep) l).
Proof.
  intros Hnarrow Hwide.
  remember (length l) as n eqn:Hn. revert l Hn.
  induction n as [n IH] using lt_wf_ind. intros l ->.
  destruct l as [|c l]; [done|]. cbn [lstrip_of].
  case_bool_decide as Hc.
  { rewrite filter_cons_False by (by intros ->).
    eapply IH; [|done]. simpl. lia. }
  destruct l as [|c1 l]; [done|].
  case_bool_decide as Hc1.
  { apply Hwide in Hc1.
    rewrite !filter_cons_False
      by (intros ->; apply Hc1; set_solver).
    eapply IH; [|done]. simpl. lia. }
  destruct l as [|c2 l]; [done|].
  case_bool_decide as Hc2; [|done].
  apply Hwide in Hc2.
  rewrite !filter_cons_False by (intros ->; apply Hc2; set_solver).
  eapply IH; [|done]. simpl. lia.
Qed.

Lemma wide_whitespace_no_colon (t : list ascii) :
  t ∈ wide_whitespace ++ (reverse <$> wide_whitespace) → ":"%char ∉ t.
Proof.
  assert (Forall (λ t, ":"%char ∉ t)
            (wide_whitespace ++ (reverse <$> wide_whitespace))) as Hall
    by (apply (bool_decide_unpack _); vm_compute; exact I).
  rewrite Forall_forall in Hall. apply Hall.
Qed.

Lemma whitespace_no_colon : ":"%char ∉ whitespace.
Proof. apply (bool_decide_unpack _). vm_compute. exact I. Qed.

Lemma strip_separators (s : string) :
  length (filter (λ c, c = ":"%char)
            (String.list_ascii_of_string (strip s)))
  = length (filter (λ c, c = ":"%char) (String.list_ascii_of_string s)).
Proof.
  unfold strip, rstrip, lstrip.
  rewrite String.list_ascii_of_string_of_list_ascii.
  rewrite filter_reverse, length_reverse.
  rewrite lstrip_of_separators;
    [|apply whitespace_no_colon
     |intros t Ht; apply wide_whitespace_no_colon, elem_of_app; by right].
  rewrite filter_reverse, length_reverse.
  apply lstrip_of_separators; [apply whitespace_no_colon|].
  intros t Ht. apply wide_whitespace_no_colon, elem_of_app. by left.
Qed.

Lemma universal_newlines_separators (l : list ascii) :
  length (filter (λ c, c = ":"%char) (universal_newlines l))
  = length (filter (λ c, c = ":"%char) l).
Proof.
  remember (length l) as n eqn:Hn. revert l Hn.
  induction n as [n IH] using lt_wf_ind. intros l ->.
  destruct l as [|c l]; [done|]. cbn [universal_newlines].
  case_bool_decide as Hc.
  - subst c. rewrite !filter_cons_False by done.
    destruct l as [|c1 l]; [done|]. case_bool_decide as Hc1.
    + subst c1. rewrite filter_cons_False by done.
      eapply IH; [|done]. simpl. lia.
    + eapply IH; [|done]. simpl. lia.
  - destruct (decide (c = ":"%char)) as [->|Hne].
    + rewrite !filter_cons_True by done. simpl. f_equal.
      eapply IH; [|done]. simpl. lia.
    + rewrite !filter_cons_False by done. eapply IH; [|done]. simpl. lia.
Qed.

(** The text read from the credential file has as many fields as the bytes
    of the file. *)
Lemma text_fields (contents : string) :
  length (split ":"
            (strip (String.string_of_list_ascii
                      (universal_newlines
                         (String.list_ascii_of_string contents)))))
  = length (split ":" (strip contents)).
Proof.
  rewrite !split_length, !strip_separators.
  rewrite String.list_ascii_of_string_of_list_ascii.
  by rewrite universal_newlines_separators.
Qed.

(** X14: a credential file that does not split into exactly two fields at
    its colons (no colon, or more than one, as in a file with a leading bucket
    name) makes the script raise ValueError: the handler catches only
    IOError.  This happens before the back end is contacted, and whatever
    keys the command line gives. *)
Theorem main_malformed_credentials H argv s contents :
  fs s !! passwd_s3fs H = Some (Regular (Data contents)) →
  length (split ":" (strip contents)) ≠ 2 →
  ∃ s',
    main H argv s = Raised ValueError s'
    ∧ trace s' = trace s
    ∧ requests s' = requests s
    ∧ objects s' = objects s.
Proof.
  unfold passwd_s3fs. intros Hfile Hfields.
  rewrite <- text_fields in Hfields.
  unfold main, try_except, get_access_key_and_secret_from_s3fs, read_text,
    read_file, expanduser, bind, ret, raise.
  rewrite Hfile. destruct (utf8_valid contents); [|by eexists].
  destruct (split ":" (strip _)) as [|a [|b [|c fields]]];
    [by eexists|by eexists|by destruct Hfields|by eexists].
Qed.

Lemma main_malformed_credentials_witness :
  ∃ s',
    main host_2024_03_05 command_line_with_keys
      (initial_state files_with_bucket_credentials) = Raised ValueError s'
    ∧ trace s' = trace (initial_state files_with_bucket_credentials)
    ∧ requests s' = requests (initial_state files_with_bucket_credentials)
    ∧ objects s' = objects (initial_state files_with_bucket_credentials).
Proof.
  apply (main_malformed_credentials host_2024_03_05 command_line_with_keys
           (initial_state files_with_bucket_credentials)
           ("backups:AKIAEXAMPLE:s3cr3t" +:+ NL)).
  - reflexivity.
  - vm_compute. discriminate.
Defined.

(** With a credential file of two keys the script gets as far as the
    check of the log level. *)
Lemma main_with_credentials H argv s access secret before after :
  all_chars key_char access → all_chars key_char secret →
  all_chars is_blank before → all_chars is_blank after →
  fs s !! passwd_s3fs H
  = Some (Regular (Data (before +:+ access +:+ ":" +:+ secret +:+ after))) →
  main H argv s
  = (logging_basicConfig (default "INFO" (opt_loglevel argv));;;
     let! manager :=
       init H (arg_bucket argv)
         (Some (default access (opt_aws_access_key argv)))
         (Some (default secret (opt_aws_secret_key argv)))
         (default (home H +:+ "/Desktop/") (opt_path argv))
         (default "desktop" (opt_bucket_prefix argv)) in
     archive_files H manager)
      (set_globals <["secret_default" := Some secret]>
         (set_globals <["access_default" := Some access]> s)).
Proof.
  unfold passwd_s3fs. intros Haccess Hsecret Hbefore Hafter Hfile.
  destruct (credentials_text before access secret after)
    as [Hvalid Hfields]; [done..|].
  unfold main, try_except, get_access_key_and_secret_from_s3fs, read_text,
    read_file, expanduser, bind at 1 2 3 4 5 6 7, ret, store_name, load_name,
    modify.
  rewrite Hfile, Hvalid, Hfields. simpl.
  rewrite (lookup_insert_ne (M:=gmap string)) by done.
  rewrite (lookup_insert_eq (M:=gmap string)).
  unfold bind at 1. cbn [globals set_globals].
  rewrite (lookup_insert_eq (M:=gmap string)).
  by destruct (opt_aws_access_key argv), (opt_aws_secret_key argv).
Qed.

(** X15: with a credential file of two keys and a log level that
    [logging] knows by name ([INFO] when none is given), the script connects
    with the keys of the command line where they are given and with the keys
    of the file where they are not, archives the path of the command line or
    else the Desktop directory of the home, under the bucket prefix of the
    command line or else [desktop]; it then behaves as [__init__] followed by
    [archive_files] with these arguments. *)
Theorem main_defaults_and_overrides H argv s access secret before after :
  all_chars key_char access → all_chars key_char secret →
  all_chars is_blank before → all_chars is_blank after →
  fs s !! passwd_s3fs H
  = Some (Regular (Data (before +:+ access +:+ ":" +:+ secret +:+ after))) →
  default "INFO" (opt_loglevel argv) ∈ level_names →
  main H argv s
  = (let! manager :=
       init H (arg_bucket argv)
         (Some (default access (opt_aws_access_key argv)))
         (Some (default secret (opt_aws_secret_key argv)))
         (default (home H +:+ "/Desktop/") (opt_path argv))
         (default "desktop" (opt_bucket_prefix argv)) in
     archive_files H manager)
      (set_globals <["secret_default" := Some secret]>
         (set_globals <["access_default" := Some access]> s)).
Proof.
  intros Haccess Hsecret Hbefore Hafter Hfile Hlevel.
  rewrite (main_with_credentials H argv s access secret before after)
    by done.
  unfold logging_basicConfig. rewrite bool_decide_eq_true_2 by done.
  reflexivity.
Qed.

Lemma main_defaults_and_overrides_witness :
  main host_2024_03_05 command_line_bare
    (initial_state files_with_credentials)
  = (let! manager :=
       init host_2024_03_05 "backups" (Some "AKIAEXAMPLE") (Some "s3cr3t")
         "/home/user/Desktop/" "desktop" in
     archive_files host_2024_03_05 manager)
      (set_globals <["secret_default" := Some "s3cr3t"]>
         (set_globals <["access_default" := Some "AKIAEXAMPLE"]>
            (initial_state files_with_credentials))).
Proof.
  apply (main_defaults_and_overrides host_2024_03_05 command_line_bare
           (initial_state files_with_credentials)
           "AKIAEXAMPLE" "s3cr3t" "" NL).
  - unfold all_chars, key_char. apply (bool_decide_unpack _). vm_compute.
    exact I.
  - unfold all_chars, key_char. apply (bool_decide_unpack _). vm_compute.
    exact I.
  - unfold all_chars, is_blank. apply (bool_decide_unpack _). vm_compute.
    exact I.
  - unfold all_chars, is_blank. apply (bool_decide_unpack _). vm_compute.
    exact I.
  - reflexivity.
  - apply (bool_decide_unpack _). vm_compute. exact I.
Defined.

(** X17: a log level that [logging] does not know by name, such as the
    lower-case [debug], makes the script raise ValueError when it configures
    the logging, with the credentials already read: no connection is made,
    nothing is archived and nothing is uploaded. *)
Theorem main_unknown_loglevel H argv s access secret before after loglevel :
  all_chars key_char access → all_chars key_char secret →
  all_chars is_blank before → all_chars is_blank after →
  fs s !! passwd_s3fs H
  = Some (Regular (Data (before +:+ access +:+ ":" +:+ secret +:+ after))) →
  opt_loglevel argv = Some loglevel →
  loglevel ∉ level_names →
  ∃ s',
    main H argv s = Raised ValueError s'
    ∧ trace s' = trace s
    ∧ requests s' = requests s
    ∧ objects s' = objects s
    ∧ fs s' = fs s.
Proof.
  intros Haccess Hsecret Hbefore Hafter Hfile Hgiven Hlevel.
  rewrite (main_with_credentials H argv s access secret before after)
    by done.
  rewrite Hgiven. unfold bind, logging_basicConfig. simpl.
  rewrite bool_decide_eq_false_2 by done. by eexists.
Qed.

Lemma main_unknown_loglevel_witness :
  ∃ s',
    main host_2024_03_05 command_line_debug
      (initial_state files_with_credentials) = Raised ValueError s'
    ∧ trace s' = []
    ∧ requests s' = 0
    ∧ objects s' = ∅
    ∧ fs s' = files_with_credentials.
Proof.
  apply (main_unknown_loglevel host_2024_03_05 command_line_debug
           (initial_state files_with_credentials)
           "AKIAEXAMPLE" "s3cr3t" "" NL "debug").
  - unfold all_chars, key_char. apply (bool_decide_unpack _). vm_compute.
    exact I.
  - unfold all_chars, key_char. apply (bool_decide_unpack _). vm_compute.
    exact I.
  - unfold all_chars, is_blank. apply (bool_decide_unpack _). vm_compute.
    exact I.
  - unfold all_chars, is_blank. apply (bool_decide_unpack _). vm_compute.
    exact I.
  - reflexivity.
  - reflexivity.
  - apply (bool_decide_unpack _). vm_compute. exact I.
Defined.

(** ** Running again *)

Lemma apply_puts_dom_keys l : ∀ m,
  dom (apply_puts l m) = dom m ∪ list_to_set (put_keys l).
Proof.
  induction l as [|e l IH]; intros m.
  - unfold apply_puts, put_keys. simpl. set_solver.
  - unfold apply_puts in *. cbn [foldl]. rewrite IH.
    unfold put_keys. destruct e; simpl; try done;
      rewrite dom_insert_L; set_solver.
Qed.

Lemma put_keys_prefix (l1 l2 : list Event) :
  l1 `prefix_of` l2 → put_keys l1 ⊆ put_keys l2.
Proof.
  intros [k ->]. rewrite put_keys_app. intros key Hkey.
  apply elem_of_app. by left.
Qed.

(** X16: a second run on the same day does not add objects to the bucket:
    when the clock shows one date throughout, then after a run that returned,
    any further run of [archive_files] with the same manager, whether it
    returns or raises, leaves the bucket with exactly the keys it had; what
    it uploads replaces the objects of the first run. *)
Theorem rerun_on_same_day_overwrites H self s s1 d :
  (∀ n, strftime_Ymd (local (clock H n)) = d) →
  archive_files H self s = Returned tt s1 →
  dom (objects (final_state (archive_files H self s1))) = dom (objects s1).
Proof.
  intros Hdate Hrun.
  (* the first run wrote the three keys of the day *)
  destruct (accounts_archive_files H self s) as (l1 & Ht1 & Ho1).
  destruct (archive_files_run H self s)
    as (a & i & st & c1 & c2 & l & Ht & _ & Hfull & _).
  rewrite Hrun in Ht1, Ho1, Ht. simpl in Ht1, Ho1, Ht.
  rewrite Ht1 in Ht. apply app_inv_head in Ht. subst l.
  rewrite (Hfull _ Hrun) in Ho1. clear Hfull.
  (* the second run writes among the same keys *)
  destruct (accounts_archive_files H self s1) as (l2 & Ht2 & Ho2).
  destruct (archive_files_run H self s1)
    as (a' & i' & st' & c1' & c2' & l & Ht & Hpre & _).
  rewrite Ht2 in Ht. apply app_inv_head in Ht. subst l.
  apply put_keys_prefix in Hpre.
  rewrite put_keys_run_events, !Hdate in Hpre.
  rewrite Ho2, apply_puts_dom_keys.
  assert (list_to_set (put_keys l2) ⊆ dom (objects s1)) as Hin.
  { rewrite Ho1, apply_puts_dom_keys, put_keys_run_events, !Hdate.
    intros key Hkey%elem_of_list_to_set. apply elem_of_union. right.
    apply elem_of_list_to_set. by apply Hpre. }
  set_solver.
Qed.

Lemma rerun_on_same_day_overwrites_witness :
  dom (objects (final_state
         (archive_files host_2024_03_05 manager_desktop
            (final_state (archive_files host_2024_03_05 manager_desktop
                            (initial_state desktop_files))))))
  = dom (objects (final_state
           (archive_files host_2024_03_05 manager_desktop
              (initial_state desktop_files)))).
Proof.
  apply (rerun_on_same_day_overwrites host_2024_03_05 manager_desktop
           (initial_state desktop_files) _ "2024-03-05").
  - intros n. reflexivity.
  - vm_compute. reflexivity.
Defined.
